(** * gemini-pdf-table-extractor: the output sanitizer and the input checks

    A shallow embedding of [src/main.py]:
    - [clean_html_output], five [re.sub] calls run one after the other, over a
      small backtracking matcher for the regular-expression constructs the
      five patterns use;
    - [process_pdf_with_gemini], as a computation in a state and exception
      monad over a world made of a file system, the generation service and
      the standard output. *)

From Stdlib Require Import Ascii String List NArith ZArith Bool Arith Lia.
From Stdlib Require QArith_base.
From Stdlib Require Import DecimalString.
Import ListNotations.

Set Implicit Arguments.

(** ** Python strings *)

(** A Python [str] is a sequence of Unicode code points. *)
Definition char := N.
Definition pystr := list char.

(** A literal of the source, written as a Rocq string (ASCII only). *)
Definition py (s : string) : pystr :=
  map N_of_ascii (list_ascii_of_string s).

(** ["\n"] *)
Definition NL : char := 10%N.
(** The backtick. *)
Definition BT : char := 96%N.

Definition char_eqb (a b : char) : bool := N.eqb a b.
Arguments char_eqb : simpl never.

Fixpoint pystr_eqb (a b : pystr) : bool :=
  match a, b with
  | [], [] => true
  | x :: a', y :: b' => char_eqb x y && pystr_eqb a' b'
  | _, _ => false
  end.

(** [s.startswith(p)] *)
Fixpoint startswith (p s : pystr) : bool :=
  match p, s with
  | [], _ => true
  | c :: p', x :: s' => char_eqb c x && startswith p' s'
  | _ :: _, [] => false
  end.

(** [s.endswith(p)] *)
Definition endswith (p s : pystr) : bool :=
  startswith (rev p) (rev s).

(** [p in s] *)
Fixpoint contains (p s : pystr) : bool :=
  startswith p s ||
  match s with
  | [] => false
  | _ :: s' => contains p s'
  end.

(** ** The regular expressions of [re], as far as the source uses them *)

Module Re.

(** [\s] on a [str] pattern: the code points for which [str.isspace] holds
    (sre's [Py_UNICODE_ISSPACE]). *)
Definition is_space (c : char) : bool :=
  ((9 <=? c) && (c <=? 13) || (28 <=? c) && (c <=? 32)
   || (c =? 133) || (c =? 160) || (c =? 5760)
   || (8192 <=? c) && (c <=? 8202)
   || (c =? 8232) || (c =? 8233) || (c =? 8239) || (c =? 8287)
   || (c =? 12288))%N.

(** The atoms the five patterns are made of: [^], [$], a literal character
    and [\s*]. A pattern is a sequence of atoms. *)
Inductive atom : Type :=
| Bol
| Eol
| Lit (c : char)
| SpaceStar.

Definition regex := list atom.

(** The literal characters of a pattern text. *)
Definition lits (s : string) : regex := map Lit (py s).

(** A literal [c] of the pattern against the character [x] of the text.
    Under [re.IGNORECASE] sre compares the lower-cased [x] with the
    lower-cased literal. The literals of the two IGNORECASE patterns of the
    source are [<], [>], [/], the backtick (not cased: exact comparison) and
    [h], [t], [m], [l], each of which is the lower case of itself and of its
    ASCII capital only. (Other letters have further partners, as [k] the
    Kelvin sign; the source has none of those.) *)
Definition is_ascii_lower (c : char) : bool := ((97 <=? c) && (c <=? 122))%N.

Definition lit_matches (ignorecase : bool) (c x : char) : bool :=
  char_eqb c x || (ignorecase && is_ascii_lower c && char_eqb (c - 32)%N x).

(** [$] without [re.MULTILINE]: at the end of the text, and just before a
    newline that is the last character of the text. *)
Definition at_eol (s : pystr) : bool :=
  match s with
  | [] => true
  | [x] => char_eqb x NL
  | _ => false
  end.

(** The backtracking matcher: [match_here ic re bol s] tries [re] at the
    start of [s], where [bol] says whether that position is the start of the
    whole text, and returns the length of the match sre finds first (a
    greedy [\s*] takes the longest run and gives characters back one at a
    time), or [None] where the pattern does not match at this position. *)
Fixpoint match_here (ic : bool) (re : regex) (bol : bool) (s : pystr)
  {struct re} : option nat :=
  match re with
  | [] => Some 0
  | Bol :: re' => if bol then match_here ic re' bol s else None
  | Eol :: re' => if at_eol s then match_here ic re' bol s else None
  | Lit c :: re' =>
      match s with
      | x :: s' =>
          if lit_matches ic c x
          then option_map S (match_here ic re' false s')
          else None
      | [] => None
      end
  | SpaceStar :: re' =>
      (fix star (bol : bool) (s : pystr) {struct s} : option nat :=
         match s with
         | x :: s' =>
             if is_space x then
               match star false s' with
               | Some n => Some (S n)
               | None => match_here ic re' bol s
               end
             else match_here ic re' bol s
         | [] => match_here ic re' bol s
         end) bol s
  end.

(** The scan of [re.sub(pattern, repl, text)] with a constant replacement:
    matches are looked for from left to right, a match is replaced by
    [repl] and the search goes on after it, a character at which there is no
    match is copied. [skip] counts the characters of the current match that
    are still to be passed over. None of the five patterns of the source
    matches the empty string ([match_here_nonempty] below), so the rule of
    [re] for empty matches plays no part; an empty match here inserts [repl]
    and copies the character. *)
Fixpoint sub_scan (ic : bool) (re : regex) (repl : pystr)
  (bol : bool) (skip : nat) (s : pystr) {struct s} : pystr :=
  match skip with
  | S k =>
      match s with
      | [] => []
      | _ :: s' => sub_scan ic re repl false k s'
      end
  | 0 =>
      match match_here ic re bol s with
      | Some (S n) =>
          repl ++ match s with
                  | [] => []
                  | _ :: s' => sub_scan ic re repl false n s'
                  end
      | Some 0 =>
          repl ++ match s with
                  | [] => []
                  | x :: s' => x :: sub_scan ic re repl false 0 s'
                  end
      | None =>
          match s with
          | [] => []
          | x :: s' => x :: sub_scan ic re repl false 0 s'
          end
      end
  end.

(** [re.sub(pattern, repl, text, flags=...)] *)
Definition sub (ic : bool) (re : regex) (repl text : pystr) : pystr :=
  sub_scan ic re repl true 0 text.

End Re.

(** ** [clean_html_output] *)

(** [r'^```html\s*'] *)
Definition pat_open_html : Re.regex :=
  Re.Bol :: Re.lits "```html" ++ [Re.SpaceStar].
(** [r'^```\s*'] *)
Definition pat_open : Re.regex :=
  Re.Bol :: Re.lits "```" ++ [Re.SpaceStar].
(** [r'\s*```$'] *)
Definition pat_close : Re.regex :=
  Re.SpaceStar :: Re.lits "```" ++ [Re.Eol].
(** [r'<html>\s*```html'] *)
Definition pat_tag_open : Re.regex :=
  Re.lits "<html>" ++ Re.SpaceStar :: Re.lits "```html".
(** [r'```\s*</html>'] *)
Definition pat_tag_close : Re.regex :=
  Re.lits "```" ++ Re.SpaceStar :: Re.lits "</html>".

Definition clean_html_output (text : pystr) : pystr :=
  let text := Re.sub false pat_open_html [] text in
  let text := Re.sub false pat_open [] text in
  let text := Re.sub false pat_close [] text in
  let text := Re.sub true pat_tag_open (py "<html>") text in
  let text := Re.sub true pat_tag_close (py "</html>") text in
  text.

(** ** Notions the properties are stated with *)

(** The fence marker. *)
Definition FENCE : pystr := py "```".

(** [re.search(pattern, text)]: the position of the first match, if any. *)
Fixpoint search_scan (ic : bool) (re : Re.regex) (bol : bool) (s : pystr)
  : option nat :=
  match Re.match_here ic re bol s with
  | Some _ => Some 0
  | None =>
      match s with
      | [] => None
      | _ :: s' => option_map S (search_scan ic re false s')
      end
  end.

Definition search (ic : bool) (re : Re.regex) (text : pystr) : option nat :=
  search_scan ic re true text.

(** Some pattern of [clean_html_output] matches somewhere in [text]. *)
Definition any_pattern_matches (text : pystr) : bool :=
  match search false pat_open_html text, search false pat_open text,
        search false pat_close text, search true pat_tag_open text,
        search true pat_tag_close text with
  | None, None, None, None, None => false
  | _, _, _, _, _ => true
  end.

(** The text without the whitespace it starts with. *)
Fixpoint lstrip (s : pystr) : pystr :=
  match s with
  | x :: s' => if Re.is_space x then lstrip s' else s
  | [] => []
  end.

(** Every match of the pattern is longer than the replacement. *)
Definition shortens (ic : bool) (re : Re.regex) (repl : pystr) : Prop :=
  forall bol t n, Re.match_here ic re bol t = Some n -> length repl < n.

(** A run of whitespace, as [\s*] matches it. *)
Definition spaces (ws : pystr) : Prop :=
  Forall (fun x => Re.is_space x = true) ws.

Import Re.

(** The length of the run of whitespace at the start of [s]. *)
Fixpoint ws_len (s : pystr) : nat :=
  match s with
  | x :: s' => if is_space x then S (ws_len s') else 0
  | [] => 0
  end.

(** What is left of [s] behind the literal text [l], compared as
    [lit_matches] compares. *)
Fixpoint lits_prefix (ic : bool) (l s : pystr) : option pystr :=
  match l, s with
  | [], _ => Some s
  | c :: l', x :: s' =>
      if lit_matches ic c x then lits_prefix ic l' s' else None
  | _ :: _, [] => None
  end.

(** [m] is the literal text [l] up to the case of its letters, as the
    matcher compares under [re.IGNORECASE]. *)
Definition same_ignoring_case (l m : pystr) : bool :=
  match lits_prefix true l m with
  | Some [] => true
  | _ => false
  end.

(** ** [process_pdf_with_gemini] *)

(** [bytes] *)
Definition bytes := list N.

(** What the file system has at a path. *)
Inductive node : Type :=
| File (data : bytes)
| Dir.

(** The parameters of a generation request. *)
Record GenerateContentConfig : Type := {
  temperature : QArith_base.Q;
  top_p : QArith_base.Q;
  top_k : Z;
  max_output_tokens : Z;
  thinking_config : option Z  (* [ThinkingConfig(thinking_budget=...)] *)
}.

(** The arguments of [client.models.generate_content]: the model, the one
    user content with its two parts (the document and the prompt), and the
    configuration. *)
Record request : Type := {
  model : pystr;
  part_mime_type : pystr;
  part_data : bytes;
  part_text : pystr;
  config : GenerateContentConfig
}.

(** The response of the service: its text, if it has one, and the token
    counts of its usage metadata. *)
Record response : Type := {
  text : option pystr;
  thoughts_token_count : option Z;
  total_token_count : option Z
}.

(** The exceptions, by the place they are raised at: the two checks of the
    path, [open], [re.sub] on a text that is [None], and the call of the
    service, whose exceptions are kept as they come. *)
Inductive exn : Type :=
| FileNotFoundError (msg : pystr)
| ValueError (msg : pystr)
| IsADirectoryError (path : pystr)
| TypeError (msg : pystr)
| ServiceError (e : pystr).

(** The world: the file system, the generation service with the requests
    sent to it so far (the latest first), and the lines printed. *)
Record world : Type := {
  fs : pystr -> option node;
  service : request -> pystr + response;
  service_calls : list request;
  stdout : list pystr
}.

(** Computations that read and write the world and may raise. *)
Definition M (A : Type) : Type := world -> (exn + A) * world.

Definition ret {A : Type} (a : A) : M A := fun w => (inr a, w).

Definition raise {A : Type} (e : exn) : M A := fun w => (inl e, w).

Definition bind {A B : Type} (m : M A) (k : A -> M B) : M B :=
  fun w =>
    match m w with
    | (inl e, w') => (inl e, w')
    | (inr a, w') => k a w'
    end.

Notation "x <- m ;; k" := (bind m (fun x => k))
  (at level 61, m at next level, right associativity).
Notation "m ;;; k" := (bind m (fun _ => k))
  (at level 61, right associativity).

(** [os.path.exists] *)
Definition os_path_exists (p : pystr) : M bool :=
  fun w => (inr (match fs w p with Some _ => true | None => false end), w).

(** [open(p, "rb")] and [f.read()] *)
Definition read_binary (p : pystr) : M bytes :=
  fun w =>
    match fs w p with
    | Some (File d) => (inr d, w)
    | Some Dir => (inl (IsADirectoryError p), w)
    | None =>
        (inl (FileNotFoundError (py "No such file or directory: " ++ p)), w)
    end.

(** [open(p, 'w', encoding='utf-8')] and [f.write(s)]: the file at [p] is
    replaced. *)
Definition write_text (encode : pystr -> bytes) (p s : pystr) : M unit :=
  fun w =>
    match fs w p with
    | Some Dir => (inl (IsADirectoryError p), w)
    | _ =>
        (inr tt,
         {| fs := fun q => if pystr_eqb q p then Some (File (encode s))
                           else fs w q;
            service := service w;
            service_calls := service_calls w;
            stdout := stdout w |})
    end.

(** [print] *)
Definition print (line : pystr) : M unit :=
  fun w =>
    (inr tt,
     {| fs := fs w; service := service w;
        service_calls := service_calls w;
        stdout := stdout w ++ [line] |}).

(** [client.models.generate_content]: the one call of the network. *)
Definition generate_content (req : request) : M response :=
  fun w =>
    let w' := {| fs := fs w; service := service w;
                 service_calls := req :: service_calls w;
                 stdout := stdout w |} in
    match service w req with
    | inl e => (inl (ServiceError e), w')
    | inr r => (inr r, w')
    end.

(** The prompt used where the caller gives none. *)
Definition DEFAULT_PROMPT : pystr := py "
        Convert this PDF to valid HTML code that preserves the exact layout of the original document.
        
        PAY SPECIAL ATTENTION TO TABLES:
        1. Preserve the exact table structure, including all rows and columns
        2. Use <table>, <tr>, <th>, and <td> elements properly
        3. Maintain all cell merges with rowspan and colspan attributes
        4. Keep header cells as <th> elements
        5. Preserve exact cell alignments (left, center, right) through CSS
        6. Maintain all cell borders and formatting
        7. Keep the exact text content of each cell with proper spacing
        
        ALSO IMPORTANT:
        - Text formatting: preserve fonts, sizes, and styles
        - Layout: maintain the exact spatial arrangement of elements
        - Images: include them in the HTML
        - Headers and footers: preserve document structure
        - CSS: use appropriate styling to match the original document appearance
        
        Analyze the document structure thoroughly before generating HTML.
        
        IMPORTANT: Return ONLY the raw HTML code WITHOUT any markdown formatting or code block markers (no ```html or ``` tags).
        The HTML should render in a browser to look identical to the PDF.
        ".

(** What [process_pdf_with_gemini] returns: the response of the service and
    the cleaned text (the attribute [text] of the source's class). *)
Record CleanedResponse : Type := {
  _original : response;
  cleaned_text : pystr
}.

Section Process.

(** Of the standard library: [Path(p).suffix], [str.lower] and the UTF-8
    encoder. *)
Variable path_suffix : pystr -> pystr.
Variable str_lower : pystr -> pystr.
Variable utf8_encode : pystr -> bytes.

Definition process_pdf_with_gemini
  (pdf_path : pystr) (output_path : option pystr) (prompt : option pystr)
  (enable_thinking : bool) (thinking_budget : Z) : M CleanedResponse :=
  (* Validate file exists *)
  found <- os_path_exists pdf_path ;;
  if negb found
  then raise (FileNotFoundError (py "PDF file not found: " ++ pdf_path))
  else
    (* Get file extension *)
    let file_extension := str_lower (path_suffix pdf_path) in
    if negb (pystr_eqb file_extension (py ".pdf"))
    then raise (ValueError (py "Expected a PDF file, got " ++ file_extension))
    else
      (* Read the PDF file as binary data; its base64 form is computed by
         the source and not used *)
      pdf_data <- read_binary pdf_path ;;
      let prompt :=
        match prompt with
        | None => DEFAULT_PROMPT
        | Some p => p
        end in
      let generate_content_config :=
        {| temperature := QArith_base.Qmake 0 1;
           top_p := QArith_base.Qmake 1 10;
           top_k := 5;
           max_output_tokens := 20000;
           thinking_config :=
             if enable_thinking then Some thinking_budget else None |} in
      response <- generate_content
        {| model := py "gemini-2.5-flash-preview-04-17";
           part_mime_type := py "application/pdf";
           part_data := pdf_data;
           part_text := prompt;
           config := generate_content_config |} ;;
      (* Clean the HTML output; [re.sub] raises on [None] *)
      cleaned_html <-
        match text response with
        | Some t => ret (clean_html_output t)
        | None => raise (TypeError (py "expected string or bytes-like object"))
        end ;;
      (* Save HTML to file if output path provided *)
      match output_path with
      | Some out =>
          if match out with [] => false | _ => true end
          then
            write_text utf8_encode out cleaned_html ;;;
            print (py "HTML output saved to: " ++ out)
          else ret tt
      | None => ret tt
      end ;;;
      ret {| _original := response; cleaned_text := cleaned_html |}.

End Process.

(** The UTF-8 encoding of ASCII text. *)
Definition ascii_encode (s : pystr) : bytes := s.

(** [str.lower] on ASCII text. *)
Definition ascii_lower (s : pystr) : pystr :=
  map (fun c => if (65 <=? c) && (c <=? 90) then c + 32 else c)%N s.

(** [s.rfind(c)] *)
Fixpoint rfind (c : char) (s : pystr) : option nat :=
  match s with
  | [] => None
  | x :: s' =>
      match rfind c s' with
      | Some i => Some (S i)
      | None => if char_eqb x c then Some 0 else None
      end
  end.

(** [PurePath.suffix] of pathlib, on a path that is a bare file name. *)
Definition name_suffix (name : pystr) : pystr :=
  match rfind 46%N name with
  | Some i =>
      if (0 <? i) && (i <? length name - 1) then skipn i name else []
  | None => []
  end.

(** A world for the examples: two files, and a service that answers every
    request with the same fenced text. *)
Definition example_world : world :=
  {| fs := fun p =>
       if pystr_eqb p (py "report.PDF") then Some (File [37; 80; 68; 70]%N)
       else if pystr_eqb p (py "notes.txt") then Some (File [])
       else None;
     service := fun _ =>
       inr {| text := Some (py "```html" ++ NL :: py "<p>ok</p>"
                            ++ NL :: py "```");
              thoughts_token_count := Some 12%Z;
              total_token_count := Some 40%Z |};
     service_calls := [];
     stdout := [] |}.

(** ** [main] *)

(** What the command line gives: the positional argument and, for every
    option, whether it was given, or the value it was given with. *)
Record command_line : Type := {
  cl_pdf_path : pystr;
  cl_output : option pystr;
  cl_prompt : option pystr;
  cl_thinking : bool;
  cl_thinking_budget : option Z;
  cl_stream : bool
}.

(** [args], what [parser.parse_args()] returns. *)
Record Namespace : Type := {
  args_pdf_path : pystr;
  args_output : option pystr;
  args_prompt : option pystr;
  args_thinking : bool;
  args_thinking_budget : Z;
  args_stream : bool
}.

(** The parser of [main], by its [add_argument] calls: a [store_true]
    option has the value [True] where it is given and its default
    elsewhere, the other options have the value given or their default. *)
Definition parse_args (cl : command_line) : Namespace :=
  {| args_pdf_path := cl_pdf_path cl;
     args_output := cl_output cl;                      (* default=None *)
     args_prompt := cl_prompt cl;                      (* default=None *)
     args_thinking := if cl_thinking cl then true else true;
                                      (* action="store_true", default=True *)
     args_thinking_budget :=
       match cl_thinking_budget cl with                (* default=24000 *)
       | Some b => b
       | None => 24000
       end;
     args_stream := if cl_stream cl then true else false
                                      (* action="store_true", default=False *)
  |}.

(** [try: m except Exception as e: handler e]: what [m] did to the world
    before it raised stays done. *)
Definition try_except {A : Type} (m : M A) (handler : exn -> M A) : M A :=
  fun w =>
    match m w with
    | (inl e, w') => handler e w'
    | (inr a, w') => (inr a, w')
    end.

Section Main.

Variable path_suffix : pystr -> pystr.
Variable str_lower : pystr -> pystr.
Variable utf8_encode : pystr -> bytes.

(** [Path(p).with_suffix('.html')] as a string (which is never empty), or
    the [ValueError] pathlib raises for a path without a name. *)
Variable with_suffix_html : pystr -> exn + pystr.

(** [repr] of a string, for the message of an [OSError]. *)
Variable repr : pystr -> pystr.

(** The text of [response.usage_metadata.thoughts_token_count] and of
    [response.usage_metadata.total_token_count] in an f-string, or [None]
    where reading the attribute raises [AttributeError]. *)
Variable str_thoughts_token_count : response -> option pystr.
Variable str_total_token_count : response -> option pystr.

(** [str(e)] *)
Definition str_exn (e : exn) : pystr :=
  match e with
  | FileNotFoundError msg => msg
  | ValueError msg => msg
  | IsADirectoryError p => py "[Errno 21] Is a directory: " ++ repr p
  | TypeError msg => msg
  | ServiceError msg => msg
  end.

Definition main (cl : command_line) : M unit :=
  let args := parse_args cl in
  (* If no output path specified, create one based on input filename *)
  output_path <-
    match args_output args with
    | Some (c :: o) => ret (c :: o)
    | _ =>
        match with_suffix_html (args_pdf_path args) with
        | inl e => raise e
        | inr p => ret p
        end
    end ;;
  try_except
    (response <- process_pdf_with_gemini path_suffix str_lower utf8_encode
                   (args_pdf_path args) (Some output_path) (args_prompt args)
                   (args_thinking args) (args_thinking_budget args) ;;
     print (NL :: py "=== CONVERSION COMPLETE ===" ++ [NL]) ;;;
     print (py "HTML saved to: " ++ output_path) ;;;
     (* Display token usage statistics; the inner [try] has the one
        handler, for the [AttributeError] of reading a count *)
     if args_thinking args
     then
       match str_thoughts_token_count (_original response) with
       | None => print (py "Token usage information not available")
       | Some n =>
           print (py "Thinking tokens used: " ++ n) ;;;
           match str_total_token_count (_original response) with
           | None => print (py "Token usage information not available")
           | Some t => print (py "Total tokens used: " ++ t)
           end
       end
     else ret tt)
    (fun e => print (py "Error processing PDF: " ++ str_exn e)).

End Main.

(** ** Worlds, for the statements *)

(** The request [process_pdf_with_gemini] builds from the bytes of the
    document and its arguments. *)
Definition sent_request (pdf_data : bytes) (prompt : option pystr)
  (enable_thinking : bool) (thinking_budget : Z) : request :=
  {| model := py "gemini-2.5-flash-preview-04-17";
     part_mime_type := py "application/pdf";
     part_data := pdf_data;
     part_text := match prompt with None => DEFAULT_PROMPT | Some p => p end;
     config :=
       {| temperature := QArith_base.Qmake 0 1;
          top_p := QArith_base.Qmake 1 10;
          top_k := 5;
          max_output_tokens := 20000;
          thinking_config :=
            if enable_thinking then Some thinking_budget else None |} |}.

(** The world after a request was sent, a file was written, lines were
    printed. *)
Definition with_call (req : request) (w : world) : world :=
  {| fs := fs w; service := service w;
     service_calls := req :: service_calls w; stdout := stdout w |}.

Definition with_file (p : pystr) (data : bytes) (w : world) : world :=
  {| fs := fun q => if pystr_eqb q p then Some (File data) else fs w q;
     service := service w; service_calls := service_calls w;
     stdout := stdout w |}.

Definition with_lines (lines : list pystr) (w : world) : world :=
  {| fs := fs w; service := service w; service_calls := service_calls w;
     stdout := stdout w ++ lines |}.


(** The output path [main] works with: the one given, or else the one made
    from the path of the document. *)
Definition output_of (with_suffix_html : pystr -> exn + pystr)
  (cl : command_line) : exn + pystr :=
  match cl_output cl with
  | Some (c :: o) => inr (c :: o)
  | _ => with_suffix_html (cl_pdf_path cl)
  end.

(** The lines of the token usage block of [main]. *)
Definition usage_lines (thoughts total : option pystr) : list pystr :=
  match thoughts with
  | None => [py "Token usage information not available"]
  | Some n =>
      (py "Thinking tokens used: " ++ n)
      :: match total with
         | None => [py "Token usage information not available"]
         | Some t => [py "Total tokens used: " ++ t]
         end
  end.




(** * Properties *)

(** ** Strings *)

Lemma char_eqb_eq (a b : char) : char_eqb a b = true <-> a = b.
Proof. apply N.eqb_eq. Qed.

Lemma startswith_app (p r : pystr) : startswith p (p ++ r) = true.
Proof.
  induction p as [|c p IH]; simpl; [reflexivity|].
  unfold char_eqb. now rewrite N.eqb_refl.
Qed.

Lemma startswith_inv (p s : pystr) :
  startswith p s = true -> exists r, s = p ++ r.
Proof.
  revert s. induction p as [|c p IH]; intros s H; simpl in *.
  - now exists s.
  - destruct s as [|x s]; [discriminate|].
    apply andb_true_iff in H as [Hc Hp].
    apply char_eqb_eq in Hc. subst x.
    destruct (IH _ Hp) as [r ->]. now exists r.
Qed.

Lemma startswith_iff (p s : pystr) :
  startswith p s = true <-> exists r, s = p ++ r.
Proof.
  split; [apply startswith_inv|].
  intros [r ->]. apply startswith_app.
Qed.

Lemma endswith_iff (p s : pystr) :
  endswith p s = true <-> exists r, s = r ++ p.
Proof.
  unfold endswith. rewrite startswith_iff. split.
  - intros [r H]. exists (rev r).
    rewrite <- (rev_involutive s), H, rev_app_distr, rev_involutive.
    reflexivity.
  - intros [r ->]. exists (rev r). apply rev_app_distr.
Qed.

Lemma contains_unfold (p s : pystr) :
  contains p s =
  startswith p s || match s with [] => false | _ :: s' => contains p s' end.
Proof. destruct s; reflexivity. Qed.

Lemma contains_iff (p s : pystr) :
  contains p s = true <-> exists a b, s = a ++ p ++ b.
Proof.
  split.
  - induction s as [|x s IH]; simpl; intros H.
    + rewrite orb_false_r in H. apply startswith_inv in H as [r ->].
      now exists [], r.
    + apply orb_true_iff in H as [H|H].
      * apply startswith_inv in H as [r ->]. now exists [], r.
      * destruct (IH H) as (a & b & ->). now exists (x :: a), b.
  - intros (a & b & ->). induction a as [|x a IH].
    + rewrite contains_unfold. simpl app. now rewrite startswith_app.
    + simpl. rewrite IH. apply orb_true_r.
Qed.

Lemma contains_tail (p : pystr) (x : char) (s : pystr) :
  contains p (x :: s) = false -> contains p s = false.
Proof.
  simpl. intros H. now apply orb_false_iff in H as [_ H].
Qed.

(** ** The matcher *)

Lemma lstrip_skipn (s : pystr) : lstrip s = skipn (ws_len s) s.
Proof.
  induction s as [|x s IH]; simpl; [reflexivity|].
  destruct (is_space x); [exact IH | reflexivity].
Qed.

Lemma lstrip_split (s : pystr) :
  s = firstn (ws_len s) s ++ lstrip s /\
  Forall (fun x => is_space x = true) (firstn (ws_len s) s).
Proof.
  induction s as [|x s [IH1 IH2]]; simpl; [now split|].
  destruct (is_space x) eqn:E; simpl; split; try constructor; auto.
  now rewrite <- IH1.
Qed.

Lemma lstrip_spaces (ws r : pystr) :
  Forall (fun x => is_space x = true) ws ->
  lstrip (ws ++ r) = lstrip r.
Proof.
  induction 1 as [|x ws Hx _ IH]; simpl; [reflexivity|]. now rewrite Hx.
Qed.

Lemma option_map_add0 (o : option nat) : option_map (Nat.add 0) o = o.
Proof. now destruct o. Qed.

Lemma match_here_star ic re bol s :
  match_here ic (SpaceStar :: re) bol s =
  match s with
  | x :: s' =>
      if is_space x then
        match match_here ic (SpaceStar :: re) false s' with
        | Some n => Some (S n)
        | None => match_here ic re bol s
        end
      else match_here ic re bol s
  | [] => match_here ic re bol s
  end.
Proof. destruct s; reflexivity. Qed.

Lemma match_here_bol ic re bol s :
  match_here ic (Bol :: re) bol s =
  if bol then match_here ic re bol s else None.
Proof. reflexivity. Qed.

(** A run of literals is matched character by character. *)
Lemma match_here_lits ic c l re bol s :
  match_here ic (map Lit (c :: l) ++ re) bol s =
  match lits_prefix ic (c :: l) s with
  | Some r => option_map (Nat.add (length (c :: l))) (match_here ic re false r)
  | None => None
  end.
Proof.
  revert c bol s. induction l as [|d l IH]; intros c bol s.
  - destruct s as [|x s]; simpl; [reflexivity|].
    destruct (lit_matches ic c x); [|reflexivity].
    now destruct (match_here ic re false s).
  - destruct s as [|x s]; [reflexivity|].
    change (match_here ic (map Lit (c :: d :: l) ++ re) bol (x :: s))
      with (if lit_matches ic c x
            then option_map S (match_here ic (map Lit (d :: l) ++ re) false s)
            else None).
    change (lits_prefix ic (c :: d :: l) (x :: s))
      with (if lit_matches ic c x then lits_prefix ic (d :: l) s else None).
    destruct (lit_matches ic c x); [|reflexivity].
    rewrite IH. destruct (lits_prefix ic (d :: l) s); [|reflexivity].
    now destruct (match_here ic re false p).
Qed.

(** [\s*] at the end of a pattern takes the whole run of whitespace. *)
Lemma match_here_star_end ic bol s :
  match_here ic [SpaceStar] bol s = Some (ws_len s).
Proof.
  revert bol. induction s as [|x s IH]; intros bol; [reflexivity|].
  rewrite match_here_star. simpl ws_len.
  destruct (is_space x); [|reflexivity]. now rewrite IH.
Qed.

(** [\s*] before a literal that is no whitespace takes the whole run of
    whitespace too: giving characters back never helps. *)
Lemma match_here_star_lit ic c re bol s :
  (forall x, lit_matches ic c x = true -> is_space x = false) ->
  match_here ic (SpaceStar :: Lit c :: re) bol s =
  option_map (Nat.add (ws_len s))
    (match_here ic (Lit c :: re) false (lstrip s)).
Proof.
  intros Hc. revert bol. induction s as [|x s IH]; intros bol.
  - reflexivity.
  - rewrite match_here_star. simpl ws_len. simpl lstrip.
    destruct (is_space x) eqn:Ex.
    + rewrite IH.
      destruct (match_here ic (Lit c :: re) false (lstrip s)); simpl.
      * reflexivity.
      * destruct (lit_matches ic c x) eqn:El; [|reflexivity].
        apply Hc in El. congruence.
    + rewrite option_map_add0. reflexivity.
Qed.

(** A match is never longer than the text. *)
Lemma match_here_le ic re : forall bol s n,
  match_here ic re bol s = Some n -> n <= length s.
Proof.
  induction re as [|a re IH]; intros bol s n H.
  - simpl in H. injection H as <-. lia.
  - destruct a.
    + simpl in H. destruct bol; [eauto|discriminate].
    + simpl in H. destruct (at_eol s); [eauto|discriminate].
    + simpl in H. destruct s as [|x s]; [discriminate|].
      destruct (lit_matches ic c x); [|discriminate].
      destruct (match_here ic re false s) eqn:E; [|discriminate].
      injection H as <-. apply IH in E. simpl. lia.
    + revert bol n H. induction s as [|x s IHs]; intros bol n H;
        rewrite match_here_star in H.
      * eauto.
      * destruct (is_space x); [|eauto].
        destruct (match_here ic (SpaceStar :: re) false s) eqn:E; [|eauto].
        injection H as <-. apply IHs in E. simpl. lia.
Qed.

(** ** The scan of [re.sub] *)

Section Scan.

Variable ic : bool.
Variable re : regex.
Variable repl : pystr.

Lemma sub_scan_skip : forall k s,
  k <= length s ->
  sub_scan ic re repl false k s = sub_scan ic re repl false 0 (skipn k s).
Proof.
  induction k as [|k IH]; intros s Hk; [reflexivity|].
  destruct s as [|x s]; simpl in Hk; [lia|].
  change (sub_scan ic re repl false (S k) (x :: s))
    with (sub_scan ic re repl false k s).
  rewrite IH by lia. reflexivity.
Qed.

(** One step of the scan: at a match the replacement is written and the scan
    goes on behind the match; elsewhere a character is copied. *)
Lemma sub_scan_step bol s :
  sub_scan ic re repl bol 0 s =
  match match_here ic re bol s with
  | Some (S n) => repl ++ sub_scan ic re repl false 0 (skipn (S n) s)
  | Some 0 =>
      repl ++ match s with
              | [] => []
              | x :: s' => x :: sub_scan ic re repl false 0 s'
              end
  | None =>
      match s with
      | [] => []
      | x :: s' => x :: sub_scan ic re repl false 0 s'
      end
  end.
Proof.
  destruct s as [|x s].
  - simpl. destruct (match_here ic re bol []) as [[|n]|] eqn:E; try reflexivity.
    apply match_here_le in E. simpl in E. lia.
  - simpl sub_scan.
    destruct (match_here ic re bol (x :: s)) as [[|n]|] eqn:E; try reflexivity.
    apply match_here_le in E. simpl in E.
    rewrite sub_scan_skip by lia. reflexivity.
Qed.

Lemma search_scan_step bol s :
  search_scan ic re bol s =
  match match_here ic re bol s with
  | Some _ => Some 0
  | None =>
      match s with
      | [] => None
      | _ :: s' => option_map S (search_scan ic re false s')
      end
  end.
Proof. destruct s; reflexivity. Qed.

(** Where the pattern matches nowhere, the text is returned as it is. *)
Lemma sub_scan_no_match : forall s bol,
  search_scan ic re bol s = None ->
  sub_scan ic re repl bol 0 s = s.
Proof.
  induction s as [|x s IH]; intros bol H; rewrite sub_scan_step;
    simpl in H; destruct (match_here ic re bol _); try discriminate.
  - reflexivity.
  - destruct (search_scan ic re false s) eqn:E; [discriminate|].
    now rewrite IH.
Qed.

Lemma sub_no_match text :
  search ic re text = None -> sub ic re repl text = text.
Proof. apply sub_scan_no_match. Qed.

(** A pattern all of whose matches hold a fence marker matches nowhere in a
    text without one. *)
Lemma search_scan_no_fence :
  (forall bol t n,
     match_here ic re bol t = Some n -> contains FENCE t = true) ->
  forall s bol, contains FENCE s = false -> search_scan ic re bol s = None.
Proof.
  intros Hre. induction s as [|x s IH]; intros bol Hs; simpl.
  - destruct (match_here ic re bol []) eqn:E; [|reflexivity].
    apply Hre in E. congruence.
  - destruct (match_here ic re bol (x :: s)) eqn:E.
    + apply Hre in E. congruence.
    + now rewrite IH by (eapply contains_tail; eauto).
Qed.

End Scan.

(** A pattern that starts with [^] matches at the start of the text only. *)
Lemma sub_scan_anchored ic re repl : forall s,
  sub_scan ic (Bol :: re) repl false 0 s = s.
Proof.
  induction s as [|x s IH]; [reflexivity|].
  rewrite sub_scan_step. simpl match_here. now rewrite IH.
Qed.

Lemma sub_anchored ic re repl s :
  sub ic (Bol :: re) repl s =
  match match_here ic re true s with
  | Some (S n) => repl ++ skipn (S n) s
  | Some 0 => repl ++ s
  | None => s
  end.
Proof.
  unfold sub. rewrite sub_scan_step.
  change (match_here ic (Bol :: re) true s) with (match_here ic re true s).
  destruct (match_here ic re true s) as [[|n]|].
  - destruct s; [reflexivity|]. now rewrite sub_scan_anchored.
  - now rewrite sub_scan_anchored.
  - destruct s; [reflexivity|]. now rewrite sub_scan_anchored.
Qed.

(** ** The five patterns *)

Lemma match_here_lits_str ic str re bol s :
  py str <> [] ->
  match_here ic (lits str ++ re) bol s =
  match lits_prefix ic (py str) s with
  | Some r => option_map (Nat.add (length (py str))) (match_here ic re false r)
  | None => None
  end.
Proof.
  unfold lits. destruct (py str) as [|c l]; [congruence|].
  intros _. apply match_here_lits.
Qed.

Lemma lit_matches_exact c x : lit_matches false c x = char_eqb c x.
Proof. unfold lit_matches. simpl. apply orb_false_r. Qed.

(** A literal that is no lower-case letter matches itself only, also under
    [re.IGNORECASE]. *)
Lemma lit_matches_uncased ic c x :
  is_ascii_lower c = false -> lit_matches ic c x = true -> x = c.
Proof.
  unfold lit_matches. intros ->. rewrite andb_false_r, orb_false_r.
  intros H. apply char_eqb_eq in H. congruence.
Qed.

Lemma lits_prefix_exact l : forall s,
  lits_prefix false l s =
  if startswith l s then Some (skipn (length l) s) else None.
Proof.
  induction l as [|c l IH]; intros s; [reflexivity|].
  destruct s as [|x s]; [reflexivity|].
  simpl. rewrite lit_matches_exact.
  destruct (char_eqb c x); [apply IH | reflexivity].
Qed.

Lemma lits_prefix_split ic l : forall s r,
  lits_prefix ic l s = Some r ->
  exists m, s = m ++ r /\ length m = length l.
Proof.
  induction l as [|c l IH]; intros s r H.
  - simpl in H. injection H as ->. now exists [].
  - destruct s as [|x s]; [discriminate|]. simpl in H.
    destruct (lit_matches ic c x); [|discriminate].
    destruct (IH _ _ H) as (m & -> & Hm).
    exists (x :: m). simpl. now rewrite Hm.
Qed.

Lemma lits_prefix_uncased ic c l s r :
  is_ascii_lower c = false ->
  lits_prefix ic (c :: l) s = Some r ->
  exists s', s = c :: s' /\ lits_prefix ic l s' = Some r.
Proof.
  intros Hc H. destruct s as [|x s]; [discriminate|]. simpl in H.
  destruct (lit_matches ic c x) eqn:E; [|discriminate].
  apply (lit_matches_uncased _ _ _ Hc) in E. subst x. now exists s.
Qed.

(** A literal text that starts with the fence marker is found at a fence
    marker only, also under [re.IGNORECASE]. *)
Lemma lits_prefix_fence ic l s r :
  lits_prefix ic (FENCE ++ l) s = Some r ->
  exists s', s = FENCE ++ s' /\ lits_prefix ic l s' = Some r.
Proof.
  intros H.
  apply lits_prefix_uncased in H as (s1 & -> & H); [|reflexivity].
  apply lits_prefix_uncased in H as (s2 & -> & H); [|reflexivity].
  apply lits_prefix_uncased in H as (s3 & -> & H); [|reflexivity].
  now exists s3.
Qed.

Lemma startswith_contains p s : startswith p s = true -> contains p s = true.
Proof. intros H. rewrite contains_unfold, H. reflexivity. Qed.

Lemma contains_app_r p a s : contains p s = true -> contains p (a ++ s) = true.
Proof.
  rewrite !contains_iff. intros (u & v & ->).
  exists (a ++ u), v. now rewrite app_assoc.
Qed.

Lemma BT_not_space ic x : lit_matches ic BT x = true -> is_space x = false.
Proof.
  intros H. apply lit_matches_uncased in H; [|reflexivity]. now subst x.
Qed.

(** *** [^```html\s*] and [^```\s*] *)

Lemma match_open ic str bol s :
  py str <> [] ->
  match_here ic (lits str ++ [SpaceStar]) bol s =
  match lits_prefix ic (py str) s with
  | Some r => Some (length (py str) + ws_len r)
  | None => None
  end.
Proof.
  intros Hs. rewrite match_here_lits_str by exact Hs.
  destruct (lits_prefix ic (py str) s); [|reflexivity].
  now rewrite match_here_star_end.
Qed.

(** The substitution of an opening marker: the marker at the very start of
    the text goes, with the whitespace behind it. *)
Lemma sub_open str s :
  py str <> [] ->
  sub false (Bol :: lits str ++ [SpaceStar]) [] s =
  if startswith (py str) s then lstrip (skipn (length (py str)) s) else s.
Proof.
  intros Hs. rewrite sub_anchored, match_open by exact Hs.
  rewrite lits_prefix_exact.
  destruct (startswith (py str) s); [|reflexivity].
  rewrite lstrip_skipn, skipn_skipn.
  rewrite (Nat.add_comm (ws_len _)).
  destruct (py str) as [|c l]; [congruence|]. reflexivity.
Qed.

Lemma sub_open_html_spec s :
  sub false pat_open_html [] s =
  if startswith (py "```html") s then lstrip (skipn 7 s) else s.
Proof. apply (sub_open "```html"). discriminate. Qed.

Lemma sub_open_spec s :
  sub false pat_open [] s =
  if startswith FENCE s then lstrip (skipn 3 s) else s.
Proof. apply (sub_open "```"). discriminate. Qed.

Lemma match_pat_open_html_fence bol t n :
  match_here false pat_open_html bol t = Some n -> contains FENCE t = true.
Proof.
  unfold pat_open_html. rewrite match_here_bol.
  destruct bol; [|discriminate].
  rewrite match_open by discriminate. intros H.
  destruct (lits_prefix false (py "```html") t) eqn:E; [|discriminate].
  apply (lits_prefix_fence false (py "html")) in E as (s' & -> & _).
  apply startswith_contains, startswith_app.
Qed.

Lemma match_pat_open_fence bol t n :
  match_here false pat_open bol t = Some n -> contains FENCE t = true.
Proof.
  unfold pat_open. rewrite match_here_bol.
  destruct bol; [|discriminate].
  rewrite match_open by discriminate. intros H.
  destruct (lits_prefix false (py "```") t) eqn:E; [|discriminate].
  apply (lits_prefix_fence false []) in E as (s' & -> & _).
  apply startswith_contains, startswith_app.
Qed.

(** *** [\s*```$] *)

Lemma match_here_eol ic bol s :
  match_here ic [Eol] bol s = if at_eol s then Some 0 else None.
Proof. reflexivity. Qed.

Lemma match_close bol s :
  match_here false pat_close bol s =
  if startswith FENCE (lstrip s) && at_eol (skipn 3 (lstrip s))
  then Some (ws_len s + 3) else None.
Proof.
  change pat_close with (SpaceStar :: Lit BT :: (lits "``" ++ [Eol])).
  rewrite match_here_star_lit by apply BT_not_space.
  change (Lit BT :: lits "``" ++ [Eol]) with (lits "```" ++ [Eol]).
  rewrite match_here_lits_str by discriminate.
  rewrite lits_prefix_exact. change (py "```") with FENCE.
  destruct (startswith FENCE (lstrip s)); [|reflexivity].
  rewrite match_here_eol. change (length FENCE) with 3.
  destruct (at_eol (skipn 3 (lstrip s))); reflexivity.
Qed.

(** A match of the closing pattern: whitespace, the marker, and the end of
    the text or its last newline. *)
Lemma match_close_inv bol s n :
  match_here false pat_close bol s = Some n ->
  exists ws r,
    s = ws ++ FENCE ++ r /\ Forall (fun x => is_space x = true) ws /\
    at_eol r = true /\ skipn n s = r.
Proof.
  rewrite match_close. intros H.
  destruct (startswith FENCE (lstrip s)) eqn:E1; [|discriminate].
  destruct (at_eol (skipn 3 (lstrip s))) eqn:E2; [|discriminate].
  injection H as <-.
  apply startswith_inv in E1 as [r Hr].
  destruct (lstrip_split s) as [Hs Hws].
  exists (firstn (ws_len s) s), r. rewrite Hr in Hs, E2.
  repeat split; auto.
  rewrite Nat.add_comm, <- skipn_skipn, <- lstrip_skipn, Hr. reflexivity.
Qed.

Lemma at_eol_inv r : at_eol r = true -> r = [] \/ r = [NL].
Proof.
  destruct r as [|x [|y r]]; simpl; intros H; try discriminate; auto.
  apply char_eqb_eq in H. subst. auto.
Qed.

Lemma match_pat_close_fence bol t n :
  match_here false pat_close bol t = Some n -> contains FENCE t = true.
Proof.
  intros H. apply match_close_inv in H as (ws & r & -> & _).
  apply contains_app_r, startswith_contains, startswith_app.
Qed.

(** The closing pattern is replaced at most once: behind a match there is
    nothing left but, at most, the last newline. *)
Lemma sub_close_spec : forall s bol,
  (search_scan false pat_close bol s = None /\
   sub_scan false pat_close [] bol 0 s = s) \/
  (exists p ws r,
     s = p ++ ws ++ FENCE ++ r /\ Forall (fun x => is_space x = true) ws /\
     at_eol r = true /\ sub_scan false pat_close [] bol 0 s = p ++ r).
Proof.
  induction s as [|x s IH]; intros bol.
  - left. split; reflexivity.
  - rewrite sub_scan_step, search_scan_step.
    destruct (match_here false pat_close bol (x :: s)) as [n|] eqn:E.
    + right. pose proof E as E'.
      apply match_close_inv in E as (ws & r & Hs & Hws & Hr & Hskip).
      exists [], ws, r. repeat split; auto.
      destruct n as [|n].
      * rewrite match_close in E'.
        destruct (_ && _) in E'; [|discriminate].
        injection E' as E'. lia.
      * rewrite Hskip. simpl.
        destruct (at_eol_inv _ Hr) as [-> | ->]; reflexivity.
    + destruct (IH false) as [[H1 H2] | (p & ws & r & Hs & Hws & Hr & Hout)].
      * left. rewrite H1, H2. split; reflexivity.
      * right. exists (x :: p), ws, r. rewrite Hout, Hs. repeat split; auto.
Qed.

(** *** [<html>\s*```html] and [```\s*</html>], with [re.IGNORECASE] *)

Lemma match_lits_nonempty ic str re bol s :
  py str <> [] -> match_here ic (lits str ++ re) bol s <> Some 0.
Proof.
  intros Hs. rewrite match_here_lits_str by exact Hs.
  destruct (lits_prefix ic (py str) s); [|discriminate].
  destruct (match_here ic re false p); [|discriminate].
  destruct (py str); [congruence|]. discriminate.
Qed.

Lemma match_tag_open_inv bol s n :
  match_here true pat_tag_open bol s = Some n ->
  exists tag ws r,
    s = tag ++ ws ++ FENCE ++ r /\ length tag = 6 /\
    Forall (fun x => is_space x = true) ws.
Proof.
  unfold pat_tag_open. rewrite match_here_lits_str by discriminate.
  destruct (lits_prefix true (py "<html>") s) as [r1|] eqn:E1; [|discriminate].
  change (SpaceStar :: lits "```html")
    with (SpaceStar :: Lit BT :: (lits "``html" ++ [])).
  rewrite match_here_star_lit by apply BT_not_space.
  change (Lit BT :: lits "``html" ++ []) with (lits "```html" ++ []).
  rewrite match_here_lits_str by discriminate.
  destruct (lits_prefix true (py "```html") (lstrip r1)) as [r2|] eqn:E2;
    [|discriminate].
  intros _.
  apply lits_prefix_split in E1 as (tag & -> & Htag).
  apply (lits_prefix_fence true (py "html")) in E2 as (r3 & Hr3 & _).
  destruct (lstrip_split r1) as [Hr1 Hws].
  exists tag, (firstn (ws_len r1) r1), r3. rewrite <- Hr3, <- Hr1. auto.
Qed.

Lemma match_tag_close_inv bol s n :
  match_here true pat_tag_close bol s = Some n -> exists r, s = FENCE ++ r.
Proof.
  unfold pat_tag_close. rewrite match_here_lits_str by discriminate.
  destruct (lits_prefix true (py "```") s) as [r1|] eqn:E1; [|discriminate].
  intros _.
  apply (lits_prefix_fence true []) in E1 as (r & -> & _). now exists r.
Qed.

Lemma match_pat_tag_open_fence bol t n :
  match_here true pat_tag_open bol t = Some n -> contains FENCE t = true.
Proof.
  intros H. apply match_tag_open_inv in H as (tag & ws & r & -> & _).
  apply contains_app_r, contains_app_r, startswith_contains, startswith_app.
Qed.

Lemma match_pat_tag_close_fence bol t n :
  match_here true pat_tag_close bol t = Some n -> contains FENCE t = true.
Proof.
  intros H. apply match_tag_close_inv in H as (r & ->).
  apply startswith_contains, startswith_app.
Qed.

(** None of the five patterns matches the empty string. *)
Lemma match_here_nonempty ic re bol s :
  In (ic, re)
     [(false, pat_open_html); (false, pat_open); (false, pat_close);
      (true, pat_tag_open); (true, pat_tag_close)] ->
  match_here ic re bol s <> Some 0.
Proof.
  simpl. intros [H|[H|[H|[H|[H|[]]]]]]; injection H as <- <-.
  - unfold pat_open_html. rewrite match_here_bol.
    destruct bol; [|discriminate]. now apply match_lits_nonempty.
  - unfold pat_open. rewrite match_here_bol.
    destruct bol; [|discriminate]. now apply match_lits_nonempty.
  - rewrite match_close. destruct (_ && _); [|discriminate].
    intros H. injection H as H. lia.
  - now apply match_lits_nonempty.
  - now apply match_lits_nonempty.
Qed.

(** ** Backticks at the two ends of a scanned text *)

Lemma suffix_behind (A : Type) (c : A) (q b : list A) : forall a p,
  a ++ c :: b = p ++ q -> ~ In c q -> exists p', b = p' ++ q.
Proof.
  induction a as [|z a IH]; intros p H Hc.
  - destruct p as [|y p]; simpl in H.
    + exfalso. apply Hc. rewrite <- H. now left.
    + injection H as _ H. now exists p.
  - destruct p as [|y p]; simpl in H.
    + exfalso. apply Hc. rewrite <- H. right. apply in_or_app. right. now left.
    + injection H as _ H. eauto.
Qed.

Section Edges.

Variable ic : bool.
Variable re : regex.
Variable repl : pystr.

Hypothesis match_nonempty : forall bol t, match_here ic re bol t <> Some 0.
Hypothesis repl_first : exists c r, repl = c :: r /\ c <> BT.
Hypothesis repl_last : exists r c, repl = r ++ [c] /\ c <> BT.

(** The backticks the result starts with were copied from the start of the
    text. *)
Lemma scan_prefix_bt : forall k s bol,
  startswith (repeat BT k) (sub_scan ic re repl bol 0 s) = true ->
  startswith (repeat BT k) s = true.
Proof.
  induction k as [|k IH]; intros s bol H; [reflexivity|].
  rewrite sub_scan_step in H.
  destruct (match_here ic re bol s) as [[|n]|] eqn:E.
  - now apply match_nonempty in E.
  - destruct repl_first as (c & r & -> & Hc). simpl in H.
    apply andb_true_iff in H as [H _]. apply char_eqb_eq in H. congruence.
  - destruct s as [|x s]; [discriminate|]. simpl in *.
    apply andb_true_iff in H as [H1 H2]. rewrite H1. simpl. eauto.
Qed.

(** A result made of backticks only is the text itself. *)
Lemma scan_all_bt : forall s bol k,
  sub_scan ic re repl bol 0 s = repeat BT k -> s = repeat BT k.
Proof.
  induction s as [|x s IH]; intros bol k H; rewrite sub_scan_step in H;
    destruct (match_here ic re bol _) as [[|n]|] eqn:E.
  - now apply match_nonempty in E.
  - apply match_here_le in E. simpl in E. lia.
  - exact H.
  - now apply match_nonempty in E.
  - destruct repl_first as (c & r & -> & Hc).
    destruct k; [discriminate|]. simpl in H. congruence.
  - destruct k; [discriminate|]. simpl in H. injection H as -> H.
    simpl. f_equal. eauto.
Qed.

(** The backticks the result ends with were copied from the end of the
    text. *)
Lemma scan_suffix_bt k : forall n s bol,
  length s <= n ->
  (exists p, sub_scan ic re repl bol 0 s = p ++ repeat BT (S k)) ->
  exists p, s = p ++ repeat BT (S k).
Proof.
  induction n as [|n IH]; intros s bol Hn [p H]; rewrite sub_scan_step in H;
    destruct (match_here ic re bol s) as [[|m]|] eqn:E;
    try (now apply match_nonempty in E).
  - apply match_here_le in E. lia.
  - destruct s; [|simpl in Hn; lia]. destruct p; discriminate.
  - destruct repl_last as (r & c & -> & Hc). rewrite <- app_assoc in H.
    apply suffix_behind in H as [p' H].
    + apply match_here_le in E.
      destruct (IH (skipn (S m) s) false) as [p2 H2].
      * rewrite length_skipn. lia.
      * now exists p'.
      * exists (firstn (S m) s ++ p2).
        rewrite <- app_assoc, <- H2. symmetry. apply firstn_skipn.
    + intros Hin. apply repeat_spec in Hin. congruence.
  - destruct s as [|x s]; [destruct p; discriminate|].
    destruct p as [|y p].
    + exists []. apply scan_all_bt with (bol := bol).
      rewrite sub_scan_step, E. exact H.
    + simpl in H. injection H as _ H. simpl in Hn.
      destruct (IH s false) as [p2 ->]; [lia|now exists p|].
      now exists (x :: p2).
Qed.

End Edges.

(** Neither substitution next to an [html] tag brings a fence marker to the
    start or to the end of the text. *)
Lemma tag_open_first : exists c r, py "<html>" = c :: r /\ c <> BT.
Proof. exists 60%N, (py "html>"). split; [reflexivity|discriminate]. Qed.

Lemma tag_open_last : exists r c, py "<html>" = r ++ [c] /\ c <> BT.
Proof. exists (py "<html"), 62%N. split; [reflexivity|discriminate]. Qed.

Lemma tag_close_first : exists c r, py "</html>" = c :: r /\ c <> BT.
Proof. exists 60%N, (py "/html>"). split; [reflexivity|discriminate]. Qed.

Lemma tag_close_last : exists r c, py "</html>" = r ++ [c] /\ c <> BT.
Proof. exists (py "</html"), 62%N. split; [reflexivity|discriminate]. Qed.

Lemma tag_open_nonempty bol t : match_here true pat_tag_open bol t <> Some 0.
Proof. now apply match_lits_nonempty. Qed.

Lemma tag_close_nonempty bol t : match_here true pat_tag_close bol t <> Some 0.
Proof. now apply match_lits_nonempty. Qed.

Lemma sub_tag_open_prefix s :
  startswith FENCE (sub true pat_tag_open (py "<html>") s) = true ->
  startswith FENCE s = true.
Proof.
  apply (@scan_prefix_bt true pat_tag_open (py "<html>")
           tag_open_nonempty tag_open_first tag_open_last 3).
Qed.

Lemma sub_tag_close_prefix s :
  startswith FENCE (sub true pat_tag_close (py "</html>") s) = true ->
  startswith FENCE s = true.
Proof.
  apply (@scan_prefix_bt true pat_tag_close (py "</html>")
           tag_close_nonempty tag_close_first tag_close_last 3).
Qed.

Lemma sub_tag_open_suffix s :
  endswith FENCE (sub true pat_tag_open (py "<html>") s) = true ->
  endswith FENCE s = true.
Proof.
  rewrite !endswith_iff.
  apply (@scan_suffix_bt true pat_tag_open (py "<html>")
           tag_open_nonempty tag_open_first tag_open_last 2 (length s)).
  lia.
Qed.

Lemma sub_tag_close_suffix s :
  endswith FENCE (sub true pat_tag_close (py "</html>") s) = true ->
  endswith FENCE s = true.
Proof.
  rewrite !endswith_iff.
  apply (@scan_suffix_bt true pat_tag_close (py "</html>")
           tag_close_nonempty tag_close_first tag_close_last 2 (length s)).
  lia.
Qed.

(** ** [clean_html_output] as a whole *)

(** A text without a fence marker holds no match of any of the patterns. *)
Lemma no_fence_no_match s :
  contains FENCE s = false -> any_pattern_matches s = false.
Proof.
  intros H. unfold any_pattern_matches, search.
  rewrite (@search_scan_no_fence false pat_open_html
             (@match_pat_open_html_fence) s true H).
  rewrite (@search_scan_no_fence false pat_open
             (@match_pat_open_fence) s true H).
  rewrite (@search_scan_no_fence false pat_close
             (@match_pat_close_fence) s true H).
  rewrite (@search_scan_no_fence true pat_tag_open
             (@match_pat_tag_open_fence) s true H).
  rewrite (@search_scan_no_fence true pat_tag_close
             (@match_pat_tag_close_fence) s true H).
  reflexivity.
Qed.

(** A text in which none of the patterns matches is returned as it is. *)
Lemma clean_fixed s :
  any_pattern_matches s = false -> clean_html_output s = s.
Proof.
  unfold any_pattern_matches, clean_html_output. intros H.
  destruct (search false pat_open_html s) eqn:E1; [discriminate|].
  destruct (search false pat_open s) eqn:E2; [discriminate|].
  destruct (search false pat_close s) eqn:E3; [discriminate|].
  destruct (search true pat_tag_open s) eqn:E4; [discriminate|].
  destruct (search true pat_tag_close s) eqn:E5; [discriminate|].
  cbv zeta.
  rewrite (@sub_no_match _ _ [] _ E1), (@sub_no_match _ _ [] _ E2).
  rewrite (@sub_no_match _ _ [] _ E3).
  rewrite (@sub_no_match _ _ (py "<html>") _ E4).
  apply (@sub_no_match _ _ (py "</html>") _ E5).
Qed.

Lemma skipn_length_app (A : Type) (p r : list A) :
  skipn (length p) (p ++ r) = r.
Proof. induction p; simpl; auto. Qed.

(** The result of removing an opening marker is a suffix of the text. *)
Lemma sub_open_suffix str s :
  py str <> [] ->
  exists pre, s = pre ++ sub false (Bol :: lits str ++ [SpaceStar]) [] s.
Proof.
  intros Hs. rewrite sub_open by exact Hs.
  destruct (startswith (py str) s); [|now exists []].
  destruct (lstrip_split (skipn (length (py str)) s)) as [H _].
  exists (firstn (length (py str)) s
          ++ firstn (ws_len (skipn (length (py str)) s))
               (skipn (length (py str)) s)).
  rewrite <- app_assoc, <- H. symmetry. apply firstn_skipn.
Qed.

(** What an opening substitution leaves at the start of the text: a fence
    marker there stood behind the marker that was removed. *)
Lemma sub_open_prefix str s :
  py str <> [] -> startswith FENCE (py str) = true ->
  startswith FENCE (sub false (Bol :: lits str ++ [SpaceStar]) [] s) = true ->
  (startswith (py str) s = false /\ startswith FENCE s = true) \/
  (exists ws r, Forall (fun x => is_space x = true) ws /\
                s = py str ++ ws ++ FENCE ++ r /\
                sub false (Bol :: lits str ++ [SpaceStar]) [] s = FENCE ++ r).
Proof.
  intros Hs Hf. rewrite sub_open by exact Hs.
  destruct (startswith (py str) s) eqn:E; [|now left].
  intros H. right. apply startswith_inv in E as [r0 ->].
  rewrite skipn_length_app in *.
  apply startswith_inv in H as [r Hr].
  destruct (lstrip_split r0) as [H0 Hws]. rewrite Hr in H0.
  exists (firstn (ws_len r0) r0), r. repeat split; auto.
  now rewrite <- H0.
Qed.

Lemma startswith_fence_app p r x :
  startswith FENCE (p ++ r) = true -> at_eol r = true ->
  startswith FENCE (p ++ x) = true.
Proof.
  intros H Hr. destruct (at_eol_inv _ Hr) as [-> | ->];
    destruct p as [|a [|b [|c p]]]; try discriminate; try exact H;
    exfalso; simpl in H; rewrite ?andb_true_iff in H;
    repeat match goal with H : _ /\ _ |- _ => destruct H end;
    discriminate.
Qed.

Lemma sub_close_prefix s :
  startswith FENCE (sub false pat_close [] s) = true ->
  startswith FENCE s = true.
Proof.
  unfold sub.
  destruct (sub_close_spec s true)
    as [[_ ->] | (p & ws & r & -> & _ & Hr & ->)]; [auto|].
  intros H. eapply startswith_fence_app; eauto.
Qed.

Lemma search_scan_app ic re : forall p t bol,
  search_scan ic re bol (p ++ t) = None ->
  exists b, match_here ic re b t = None.
Proof.
  induction p as [|x p IH]; intros t bol H; rewrite search_scan_step in H;
    destruct (match_here ic re bol _) eqn:E; try discriminate.
  - now exists bol.
  - simpl in H. destruct (search_scan ic re false (p ++ t)) eqn:E'; eauto.
    discriminate.
Qed.

(** What the closing substitution leaves at the end of the text: a fence
    marker there stood before the marker that was removed. *)
Lemma sub_close_suffix s :
  endswith FENCE (sub false pat_close [] s) = true ->
  exists p ws, Forall (fun x => is_space x = true) ws /\
               s = p ++ FENCE ++ ws ++ FENCE.
Proof.
  unfold sub. rewrite endswith_iff.
  destruct (sub_close_spec s true)
    as [[Hn ->] | (p & ws & r & -> & Hws & Hr & ->)]; intros [q H].
  - subst s. apply search_scan_app in Hn as [b Hn].
    destruct b; discriminate.
  - destruct (at_eol_inv _ Hr) as [-> | ->].
    + rewrite app_nil_r in *. subst p. exists q, ws.
      now rewrite <- app_assoc.
    + change FENCE with ([BT; BT] ++ [BT]) in H. rewrite app_assoc in H.
      apply app_inj_tail in H as [_ H]. discriminate.
Qed.

(** ** A substitution never makes the text longer *)

Lemma match_tag_open_len bol s n :
  match_here true pat_tag_open bol s = Some n -> 13 <= n.
Proof.
  unfold pat_tag_open. rewrite match_here_lits_str by discriminate.
  destruct (lits_prefix true (py "<html>") s) as [r1|]; [|discriminate].
  change (SpaceStar :: lits "```html")
    with (SpaceStar :: Lit BT :: (lits "``html" ++ [])).
  rewrite match_here_star_lit by apply BT_not_space.
  change (Lit BT :: lits "``html" ++ []) with (lits "```html" ++ []).
  rewrite match_here_lits_str by discriminate.
  destruct (lits_prefix true (py "```html") (lstrip r1)); [|discriminate].
  simpl. intros H. injection H as <-. lia.
Qed.

Lemma match_tag_close_len bol s n :
  match_here true pat_tag_close bol s = Some n -> 10 <= n.
Proof.
  unfold pat_tag_close. rewrite match_here_lits_str by discriminate.
  destruct (lits_prefix true (py "```") s) as [r1|]; [|discriminate].
  change (SpaceStar :: lits "</html>")
    with (SpaceStar :: Lit 60%N :: (lits "/html>" ++ [])).
  rewrite match_here_star_lit.
  - change (Lit 60%N :: lits "/html>" ++ []) with (lits "</html>" ++ []).
    rewrite match_here_lits_str by discriminate.
    destruct (lits_prefix true (py "</html>") (lstrip r1)); [|discriminate].
    simpl. intros H. injection H as <-. lia.
  - intros x H. apply lit_matches_uncased in H; [|reflexivity]. now subst x.
Qed.

Section Lengths.

Variable ic : bool.
Variable re : regex.
Variable repl : pystr.

Hypothesis match_longer :
  forall bol t n, match_here ic re bol t = Some n -> length repl < n.

Lemma sub_scan_length_le : forall k s bol,
  length s <= k -> length (sub_scan ic re repl bol 0 s) <= length s.
Proof.
  induction k as [|k IH]; intros s bol Hk; rewrite sub_scan_step;
    destruct (match_here ic re bol s) as [[|m]|] eqn:E;
    try (apply match_longer in E; lia).
  - pose proof (match_here_le _ _ _ _ E). lia.
  - destruct s; [reflexivity|simpl in Hk; lia].
  - pose proof (match_here_le _ _ _ _ E) as Hm.
    apply match_longer in E.
    rewrite length_app.
    specialize (IH (skipn (S m) s) false).
    rewrite length_skipn in IH. lia.
  - destruct s as [|x s]; [reflexivity|]. simpl in *.
    specialize (IH s false). lia.
Qed.

Lemma sub_scan_length_lt : forall s bol,
  search_scan ic re bol s <> None ->
  length (sub_scan ic re repl bol 0 s) < length s.
Proof.
  induction s as [|x s IH]; intros bol H; rewrite search_scan_step in H;
    rewrite sub_scan_step;
    destruct (match_here ic re bol _) as [[|m]|] eqn:E;
    try (apply match_longer in E; lia); try contradiction.
  - pose proof (match_here_le _ _ _ _ E). simpl in *. lia.
  - pose proof (match_here_le _ _ _ _ E) as Hm.
    apply match_longer in E. rewrite length_app.
    pose proof (sub_scan_length_le (skipn (S m) (x :: s)) false (Nat.le_refl _))
      as Hle.
    rewrite length_skipn in Hle. lia.
  - simpl. apply -> Nat.succ_lt_mono. apply IH.
    destruct (search_scan ic re false s); [discriminate|]. now apply H.
Qed.

End Lengths.

Lemma match_longer_empty ic re :
  (forall bol t, match_here ic re bol t <> Some 0) ->
  forall bol t n, match_here ic re bol t = Some n -> length (@nil char) < n.
Proof.
  intros H bol t n E. destruct n; [now apply H in E|]. simpl. lia.
Qed.

Lemma shorten_open_html : shortens false pat_open_html [].
Proof.
  unfold shortens. apply match_longer_empty.
  intros bol t. apply match_here_nonempty.
  simpl. auto.
Qed.

Lemma shorten_open : shortens false pat_open [].
Proof.
  unfold shortens. apply match_longer_empty.
  intros bol t. apply match_here_nonempty.
  simpl. auto.
Qed.

Lemma shorten_close : shortens false pat_close [].
Proof.
  unfold shortens. apply match_longer_empty.
  intros bol t. apply match_here_nonempty.
  simpl. auto 6.
Qed.

Lemma shorten_tag_open :
  shortens true pat_tag_open (py "<html>").
Proof. intros bol t n H. apply match_tag_open_len in H. simpl. lia. Qed.

Lemma shorten_tag_close :
  shortens true pat_tag_close (py "</html>").
Proof. intros bol t n H. apply match_tag_close_len in H. simpl. lia. Qed.

Lemma sub_length_le ic re repl s :
  shortens ic re repl -> length (sub ic re repl s) <= length s.
Proof. intros H. now apply sub_scan_length_le with (k := length s). Qed.

Lemma sub_length_lt ic re repl s :
  shortens ic re repl -> search ic re s <> None ->
  length (sub ic re repl s) < length s.
Proof. intros H. now apply sub_scan_length_lt. Qed.

(** A substitution that has a match makes the text shorter, and the text
    does not get its length back. *)
Ltac shorter_by Hshort :=
  match goal with
  | E : search ?ic ?re ?s = Some _ |- _ =>
      let Hn := fresh "Hn" in
      assert (Hn : search ic re s <> None) by (rewrite E; discriminate);
      apply (@sub_length_lt _ _ _ _ Hshort) in Hn; exfalso; lia
  end.

(** The texts [clean_html_output] returns as they are, are the texts in
    which none of the patterns matches. *)
Lemma clean_fixed_iff s :
  clean_html_output s = s <-> any_pattern_matches s = false.
Proof.
  split; [|apply clean_fixed].
  intros H. apply (f_equal (@length char)) in H.
  unfold clean_html_output in H. cbv zeta in H.
  unfold any_pattern_matches.
  pose proof (fun t => @sub_length_le _ _ _ t shorten_tag_close) as L5.
  pose proof (fun t => @sub_length_le _ _ _ t shorten_tag_open) as L4.
  pose proof (fun t => @sub_length_le _ _ _ t shorten_close) as L3.
  pose proof (fun t => @sub_length_le _ _ _ t shorten_open) as L2.
  specialize (L5 (sub true pat_tag_open (py "<html>")
                    (sub false pat_close []
                       (sub false pat_open []
                          (sub false pat_open_html [] s))))).
  specialize (L4 (sub false pat_close []
                    (sub false pat_open [] (sub false pat_open_html [] s)))).
  specialize (L3 (sub false pat_open [] (sub false pat_open_html [] s))).
  specialize (L2 (sub false pat_open_html [] s)).
  destruct (search false pat_open_html s) eqn:E1;
    [shorter_by shorten_open_html|].
  rewrite (@sub_no_match _ _ [] _ E1) in *.
  destruct (search false pat_open s) eqn:E2; [shorter_by shorten_open|].
  rewrite (@sub_no_match _ _ [] _ E2) in *.
  destruct (search false pat_close s) eqn:E3; [shorter_by shorten_close|].
  rewrite (@sub_no_match _ _ [] _ E3) in *.
  destruct (search true pat_tag_open s) eqn:E4;
    [shorter_by shorten_tag_open|].
  rewrite (@sub_no_match _ _ (py "<html>") _ E4) in *.
  destruct (search true pat_tag_close s) eqn:E5;
    [shorter_by shorten_tag_close|reflexivity].
Qed.

(** ** The claims on the sanitizer *)

(** C1, as the source has it. Each substitution at an edge of the text is
    made once: the output starts with a fence marker only where the input
    started with two of them (the first possibly tagged [html]), apart by
    whitespace at most, and it ends with a fence marker only where the input
    ended with two of them, apart by whitespace at most. So a lone marker
    at the very start or at the very end of the input never stays at that
    edge of the output. *)
Theorem clean_html_output_edge_fences (s : pystr) :
  (startswith FENCE (clean_html_output s) = true ->
   exists ws r, spaces ws /\
     (s = FENCE ++ ws ++ FENCE ++ r \/
      exists ws0, spaces ws0 /\
        s = py "```html" ++ ws0 ++ FENCE ++ ws ++ FENCE ++ r)) /\
  (endswith FENCE (clean_html_output s) = true ->
   exists p ws, spaces ws /\ s = p ++ FENCE ++ ws ++ FENCE).
Proof.
  unfold clean_html_output. cbv zeta. split; intros H.
  - apply sub_tag_close_prefix, sub_tag_open_prefix, sub_close_prefix in H.
    apply (@sub_open_prefix "```") in H
      as [[E Hf] | (ws & r & Hws & Ht & _)];
      [change (py "```") with FENCE in E; congruence | | discriminate
       | reflexivity].
    exists ws, r. split; [exact Hws|].
    rewrite sub_open_html_spec in Ht.
    destruct (startswith (py "```html") s) eqn:E; [|now left].
    right. apply startswith_inv in E as [r0 ->].
    change 7 with (length (py "```html")) in Ht.
    rewrite skipn_length_app in Ht.
    destruct (lstrip_split r0) as [H0 Hws0]. rewrite Ht in H0.
    exists (firstn (ws_len r0) r0). split; [exact Hws0|].
    exact (f_equal (app (py "```html")) H0).
  - apply sub_tag_close_suffix, sub_tag_open_suffix, sub_close_suffix in H.
    destruct H as (p & ws & Hws & Ht).
    destruct (@sub_open_suffix "```"
                (sub false pat_open_html [] s)) as [pre1 H1];
      [discriminate|].
    destruct (@sub_open_suffix "```html" s) as [pre0 H0]; [discriminate|].
    fold pat_open in H1. fold pat_open_html in H0.
    exists (pre0 ++ pre1 ++ p), ws. split; [exact Hws|].
    rewrite H0 at 1. rewrite H1 at 1. rewrite Ht.
    now rewrite <- !app_assoc.
Qed.

Lemma clean_html_output_edge_fences_witness :
  (exists ws r, spaces ws /\
     (py "``` ```x" = FENCE ++ ws ++ FENCE ++ r \/
      exists ws0, spaces ws0 /\
        py "``` ```x" = py "```html" ++ ws0 ++ FENCE ++ ws ++ FENCE ++ r)) /\
  (exists p ws, spaces ws /\ py "x``` ```" = p ++ FENCE ++ ws ++ FENCE).
Proof.
  split.
  - apply (proj1 (clean_html_output_edge_fences (py "``` ```x"))).
    reflexivity.
  - apply (proj2 (clean_html_output_edge_fences (py "x``` ```"))).
    reflexivity.
Defined.

(** C1, as the specification states it, fails: behind the marker that is
    removed a second one comes to the edge of the output. *)
Lemma clean_html_output_edge_fences_counterexample :
  contains FENCE (py "``` ```x") = true /\
  startswith FENCE (clean_html_output (py "``` ```x")) = true /\
  contains FENCE (py "x``` ```") = true /\
  endswith FENCE (clean_html_output (py "x``` ```")) = true.
Proof. repeat split; reflexivity. Qed.

(** C2, as the source has it. A second pass changes nothing exactly where
    the first pass left no match of any of the five patterns, as it does
    where it left no fence marker at all ([no_fence_no_match]). *)
Theorem clean_html_output_idempotent_iff_settled (s : pystr) :
  clean_html_output (clean_html_output s) = clean_html_output s <->
  any_pattern_matches (clean_html_output s) = false.
Proof. apply clean_fixed_iff. Qed.

Lemma clean_html_output_idempotent_iff_settled_witness :
  clean_html_output
    (clean_html_output
       (py "```html" ++ NL :: py "<p>x</p>" ++ NL :: py "```")) =
  clean_html_output (py "```html" ++ NL :: py "<p>x</p>" ++ NL :: py "```").
Proof.
  apply (proj2 (clean_html_output_idempotent_iff_settled
                  (py "```html" ++ NL :: py "<p>x</p>" ++ NL :: py "```"))).
  reflexivity.
Defined.

(** C2, as the specification states it, fails: the first pass removes one
    opening marker and the second pass removes the next. *)
Lemma clean_html_output_idempotent_counterexample :
  clean_html_output (clean_html_output (py "``````x")) <>
  clean_html_output (py "``````x").
Proof. discriminate. Qed.

(** C4, as the source has it: the closing pattern takes the whitespace
    before the marker with it, so the newline behind the body goes too. *)
Theorem clean_html_output_fenced_paragraph :
  clean_html_output (py "```html" ++ NL :: py "<p>x</p>" ++ NL :: py "```") =
  py "<p>x</p>".
Proof. reflexivity. Qed.

(** C4, as the specification states it, fails: no newline is left. *)
Lemma clean_html_output_fenced_paragraph_counterexample :
  clean_html_output (py "```html" ++ NL :: py "<p>x</p>" ++ NL :: py "```") <>
  py "<p>x</p>" ++ [NL].
Proof. discriminate. Qed.

(** C5. A text without a fence marker is returned as it is, the empty text
    among them; [clean_html_output] is a total function. *)
Theorem clean_html_output_identity_without_fence :
  (forall s : pystr, contains FENCE s = false -> clean_html_output s = s) /\
  clean_html_output [] = [].
Proof.
  split; [|reflexivity].
  intros s H. apply clean_fixed, no_fence_no_match, H.
Qed.

Lemma clean_html_output_identity_without_fence_witness :
  clean_html_output (py "<table><tr><td>`a`</td></tr></table>") =
  py "<table><tr><td>`a`</td></tr></table>".
Proof.
  apply (proj1 clean_html_output_identity_without_fence). reflexivity.
Defined.

(** C6. The fence markers next to the two [html] tags are removed. *)
Theorem clean_html_output_fenced_inside_html :
  clean_html_output
    (py "<html>" ++ NL :: py "```html" ++ NL :: py "<body>ok</body>"
     ++ NL :: py "```" ++ NL :: py "</html>") =
  py "<html>" ++ NL :: py "<body>ok</body>" ++ NL :: py "</html>".
Proof. reflexivity. Qed.

(** *** A fenced body *)

Lemma ws_len_spaces ws r :
  spaces ws -> ws_len (ws ++ r) = length ws + ws_len r.
Proof.
  induction 1 as [|x ws Hx _ IH]; simpl; [reflexivity|]. now rewrite Hx, IH.
Qed.

(** The closing pattern does not match at a position from which a
    character that is no whitespace comes before the last marker. *)
Lemma match_close_inside bol x body ws :
  (exists r z, x :: body = r ++ [z] /\ is_space z = false) ->
  match_here false pat_close bol ((x :: body) ++ ws ++ FENCE) = None.
Proof.
  intros (r & z & Hb & Hz).
  destruct (match_here false pat_close bol _) as [n|] eqn:E; [|reflexivity].
  exfalso. apply match_close_inv in E as (sp & r' & Hs & Hsp & Hr & _).
  rewrite Hb in Hs.
  destruct (at_eol_inv _ Hr) as [-> | ->].
  - rewrite app_nil_r, (app_assoc (r ++ [z]) ws FENCE) in Hs.
    apply app_inv_tail in Hs.
    assert (Hin : In z sp) by (rewrite <- Hs; apply in_or_app; left;
                               apply in_or_app; right; now left).
    unfold spaces in Hsp. rewrite Forall_forall in Hsp.
    apply Hsp in Hin. congruence.
  - change (FENCE ++ [NL]) with ([BT; BT; BT] ++ [NL]) in Hs.
    change FENCE with ([BT; BT] ++ [BT]) in Hs.
    rewrite !app_assoc in Hs. apply app_inj_tail in Hs as [_ Hs]. discriminate.
Qed.

(** Behind a body that does not end in whitespace the closing pattern
    removes the marker at the end with the whitespace before it, and that
    only. *)
Lemma sub_close_exact : forall body ws bol,
  body = [] \/ (exists r z, body = r ++ [z] /\ is_space z = false) ->
  spaces ws ->
  sub_scan false pat_close [] bol 0 (body ++ ws ++ FENCE) = body.
Proof.
  induction body as [|x body IH]; intros ws bol Hb Hws; rewrite sub_scan_step.
  - simpl app at 1. rewrite match_close, (lstrip_spaces _ Hws).
    rewrite (ws_len_spaces _ Hws). simpl andb. cbv iota.
    replace (length ws + ws_len FENCE + 3) with (S (length ws + 2))
      by (simpl; lia).
    rewrite skipn_all2; [reflexivity|].
    simpl. rewrite length_app. simpl. lia.
  - destruct Hb as [Hb | Hb]; [discriminate|].
    rewrite (match_close_inside bol ws Hb).
    simpl. f_equal. apply IH; [|exact Hws].
    destruct Hb as (r & z & Hb & Hz).
    destruct r as [|y r]; injection Hb as -> ->; [now left|].
    right. now exists r, z.
Qed.




(** ** The claims on the checks of the path *)

Lemma pystr_eqb_eq (a b : pystr) : pystr_eqb a b = true <-> a = b.
Proof.
  revert b. induction a as [|x a IH]; intros [|y b]; simpl;
    try (split; discriminate); [split; reflexivity|].
  rewrite andb_true_iff, char_eqb_eq, IH. split.
  - intros [-> ->]. reflexivity.
  - intros H. injection H as -> ->. now split.
Qed.

Lemma pystr_eqb_neq (a b : pystr) : a <> b -> pystr_eqb a b = false.
Proof.
  intros H. destruct (pystr_eqb a b) eqn:E; [|reflexivity].
  apply pystr_eqb_eq in E. contradiction.
Qed.

Section Checks.

Variable path_suffix : pystr -> pystr.
Variable str_lower : pystr -> pystr.
Variable utf8_encode : pystr -> bytes.

(** C7. For a path at which the file system has nothing the missing-file
    error is raised and the world is left as it was: no request was sent to
    the service. *)
Theorem missing_file_raised_before_service
  (w : world) (pdf_path : pystr) (output_path prompt : option pystr)
  (enable_thinking : bool) (thinking_budget : Z) :
  fs w pdf_path = None ->
  process_pdf_with_gemini path_suffix str_lower utf8_encode pdf_path
    output_path prompt enable_thinking thinking_budget w =
    (inl (FileNotFoundError (py "PDF file not found: " ++ pdf_path)), w) /\
  service_calls
    (snd (process_pdf_with_gemini path_suffix str_lower utf8_encode pdf_path
            output_path prompt enable_thinking thinking_budget w))
  = service_calls w.
Proof.
  intros H. unfold process_pdf_with_gemini, bind, os_path_exists.
  rewrite H. split; reflexivity.
Qed.

(** C8. For a path that exists and whose lower-cased suffix is not [.pdf],
    a [ValueError] is raised whose message ends with that suffix; it is no
    [FileNotFoundError], and the world is left as it was: no request was
    sent to the service. *)
Theorem wrong_extension_raised_before_service
  (w : world) (pdf_path : pystr) (output_path prompt : option pystr)
  (enable_thinking : bool) (thinking_budget : Z) :
  fs w pdf_path <> None ->
  str_lower (path_suffix pdf_path) <> py ".pdf" ->
  process_pdf_with_gemini path_suffix str_lower utf8_encode pdf_path
    output_path prompt enable_thinking thinking_budget w =
    (inl (ValueError (py "Expected a PDF file, got "
                      ++ str_lower (path_suffix pdf_path))), w) /\
  (forall msg,
     fst (process_pdf_with_gemini path_suffix str_lower utf8_encode pdf_path
            output_path prompt enable_thinking thinking_budget w)
     <> inl (FileNotFoundError msg)) /\
  service_calls
    (snd (process_pdf_with_gemini path_suffix str_lower utf8_encode pdf_path
            output_path prompt enable_thinking thinking_budget w))
  = service_calls w.
Proof.
  intros Hfs Hext.
  assert (E : process_pdf_with_gemini path_suffix str_lower utf8_encode
                pdf_path output_path prompt enable_thinking thinking_budget w =
              (inl (ValueError (py "Expected a PDF file, got "
                                ++ str_lower (path_suffix pdf_path))), w)).
  { unfold process_pdf_with_gemini, bind, os_path_exists.
    destruct (fs w pdf_path); [|contradiction]. simpl negb. cbv iota.
    now rewrite (pystr_eqb_neq Hext). }
  rewrite E. repeat split. intros msg. discriminate.
Qed.

(** C9. The suffix is compared in lower case: for a path that exists and
    whose lower-cased suffix is [.pdf], as for [.PDF] and [.Pdf], no
    [ValueError] is raised. *)
Theorem pdf_extension_case_insensitive
  (w : world) (pdf_path : pystr) (output_path prompt : option pystr)
  (enable_thinking : bool) (thinking_budget : Z) :
  fs w pdf_path <> None ->
  str_lower (path_suffix pdf_path) = py ".pdf" ->
  forall msg,
    fst (process_pdf_with_gemini path_suffix str_lower utf8_encode pdf_path
            output_path prompt enable_thinking thinking_budget w)
    <> inl (ValueError msg).
Proof.
  intros Hfs Hext msg.
  unfold process_pdf_with_gemini, bind, os_path_exists, read_binary,
    generate_content, write_text, print, ret, raise.
  rewrite Hext, (proj2 (pystr_eqb_eq (py ".pdf") (py ".pdf")) eq_refl).
  destruct (fs w pdf_path) as [n|] eqn:Efs; [|contradiction].
  cbn [negb]. rewrite Efs.
  destruct n as [d|]; simpl; [|discriminate].
  destruct (service w _) as [e|r]; simpl; [discriminate|].
  destruct (text r); simpl; [|discriminate].
  destruct output_path as [[|c out]|]; simpl; try discriminate.
  destruct (fs w (c :: out)) as [[d'|]|]; simpl; discriminate.
Qed.

(** C10. The path is looked up before its suffix is looked at: for a path
    at which the file system has nothing the error raised is the
    [FileNotFoundError], whatever the suffix, and no [ValueError]. *)
Theorem existence_checked_before_extension
  (w : world) (pdf_path : pystr) (output_path prompt : option pystr)
  (enable_thinking : bool) (thinking_budget : Z) :
  fs w pdf_path = None ->
  fst (process_pdf_with_gemini path_suffix str_lower utf8_encode pdf_path
            output_path prompt enable_thinking thinking_budget w)
    = inl (FileNotFoundError (py "PDF file not found: " ++ pdf_path)) /\
  forall msg,
    fst (process_pdf_with_gemini path_suffix str_lower utf8_encode pdf_path
            output_path prompt enable_thinking thinking_budget w)
    <> inl (ValueError msg).
Proof.
  intros H. unfold process_pdf_with_gemini, bind, os_path_exists.
  rewrite H. split; [reflexivity|]. intros msg. discriminate.
Qed.

End Checks.

(** A run on a file that is there: one request is sent, the text of the
    response is cleaned and written, and a line is printed. *)
Example process_example_run :
  let '(r, w) :=
    process_pdf_with_gemini name_suffix ascii_lower ascii_encode
      (py "report.PDF") (Some (py "report.html")) None true 8000
      example_world in
  option_map cleaned_text (match r with inr c => Some c | inl _ => None end)
    = Some (py "<p>ok</p>") /\
  length (service_calls w) = 1 /\
  fs w (py "report.html") = Some (File (py "<p>ok</p>")) /\
  stdout w = [py "HTML output saved to: report.html"].
Proof. vm_compute. repeat split; reflexivity. Qed.

Lemma missing_file_raised_before_service_witness :
  process_pdf_with_gemini name_suffix ascii_lower ascii_encode
    (py "missing.pdf") None None true 8000 example_world =
    (inl (FileNotFoundError (py "PDF file not found: missing.pdf")),
     example_world) /\
  service_calls
    (snd (process_pdf_with_gemini name_suffix ascii_lower ascii_encode
            (py "missing.pdf") None None true 8000 example_world)) = [].
Proof.
  apply (missing_file_raised_before_service name_suffix ascii_lower
           ascii_encode example_world (py "missing.pdf") None None true 8000).
  reflexivity.
Defined.

Lemma wrong_extension_raised_before_service_witness :
  process_pdf_with_gemini name_suffix ascii_lower ascii_encode
    (py "notes.txt") None None true 8000 example_world =
    (inl (ValueError (py "Expected a PDF file, got .txt")), example_world) /\
  (forall msg,
     fst (process_pdf_with_gemini name_suffix ascii_lower ascii_encode
            (py "notes.txt") None None true 8000 example_world)
     <> inl (FileNotFoundError msg)) /\
  service_calls
    (snd (process_pdf_with_gemini name_suffix ascii_lower ascii_encode
            (py "notes.txt") None None true 8000 example_world)) = [].
Proof.
  apply (wrong_extension_raised_before_service name_suffix ascii_lower
           ascii_encode example_world (py "notes.txt") None None true 8000).
  - discriminate.
  - discriminate.
Defined.

Lemma pdf_extension_case_insensitive_witness :
  ascii_lower (name_suffix (py "report.PDF")) = py ".pdf" /\
  forall msg,
    fst (process_pdf_with_gemini name_suffix ascii_lower ascii_encode
           (py "report.PDF") None None true 8000 example_world)
    <> inl (ValueError msg).
Proof.
  split; [reflexivity|].
  apply (pdf_extension_case_insensitive name_suffix ascii_lower ascii_encode
           example_world (py "report.PDF") None None true 8000).
  - discriminate.
  - reflexivity.
Defined.

Lemma existence_checked_before_extension_witness :
  ascii_lower (name_suffix (py "missing.txt")) = py ".txt" /\
  fst (process_pdf_with_gemini name_suffix ascii_lower ascii_encode
         (py "missing.txt") None None true 8000 example_world)
    = inl (FileNotFoundError (py "PDF file not found: missing.txt")) /\
  forall msg,
    fst (process_pdf_with_gemini name_suffix ascii_lower ascii_encode
           (py "missing.txt") None None true 8000 example_world)
    <> inl (ValueError msg).
Proof.
  split; [reflexivity|].
  apply (existence_checked_before_extension name_suffix ascii_lower
           ascii_encode example_world (py "missing.txt") None None true 8000).
  reflexivity.
Defined.

(** * Further properties of the sanitizer *)

(** ** The length of the output *)

(** X1. The output is never longer than the input: every substitution
    replaces a match by a shorter text. *)
Theorem clean_html_output_never_longer (s : pystr) :
  length (clean_html_output s) <= length s.
Proof.
  unfold clean_html_output. cbv zeta.
  etransitivity; [apply (sub_length_le _ shorten_tag_close)|].
  etransitivity; [apply (sub_length_le _ shorten_tag_open)|].
  etransitivity; [apply (sub_length_le _ shorten_close)|].
  etransitivity; [apply (sub_length_le _ shorten_open)|].
  apply (sub_length_le _ shorten_open_html).
Qed.

(** ** The closing marker *)

Lemma close_match_at_end b r :
  at_eol r = true -> match_here false pat_close b (FENCE ++ r) <> None.
Proof.
  intros Hr. destruct (at_eol_inv _ Hr) as [-> | ->]; destruct b; discriminate.
Qed.

(** The closing pattern matches somewhere exactly in a text that ends with
    the marker, or with the marker and one newline. *)
Lemma close_search_iff : forall s bol,
  search_scan false pat_close bol s <> None <->
  (exists p r, s = p ++ FENCE ++ r /\ at_eol r = true).
Proof.
  intros s bol. split.
  - revert bol. induction s as [|x s IH]; intros bol H;
      rewrite search_scan_step in H;
      destruct (match_here false pat_close bol _) as [n|] eqn:E;
      try contradiction.
    + apply match_close_inv in E as (ws & r & Hs & _ & Hr & _).
      now exists ws, r.
    + apply match_close_inv in E as (ws & r & Hs & _ & Hr & _).
      now exists ws, r.
    + destruct (search_scan false pat_close false s) eqn:E';
        [|now contradiction H].
      destruct (IH false) as (p & r & -> & Hr); [rewrite E'; discriminate|].
      now exists (x :: p), r.
  - intros (p & r & -> & Hr) H.
    apply search_scan_app in H as [b H]. now apply close_match_at_end in H.
Qed.

(** X2. The third substitution changes the text exactly where the text ends
    with the marker, or with the marker and one last newline: a marker
    with anything else behind it, a space or two newlines, stays. *)
Theorem closing_marker_removed_iff (s : pystr) :
  sub false pat_close [] s <> s <->
  endswith FENCE s = true \/ endswith (FENCE ++ [NL]) s = true.
Proof.
  rewrite !endswith_iff. split.
  - intros H.
    destruct (search false pat_close s) eqn:E;
      [|now rewrite (@sub_no_match _ _ [] _ E) in H].
    assert (Hn : search_scan false pat_close true s <> None)
      by (unfold search in E; rewrite E; discriminate).
    apply close_search_iff in Hn as (p & r & -> & Hr).
    destruct (at_eol_inv _ Hr) as [-> | ->]; [left|right]; exists p;
      now rewrite ?app_nil_r.
  - intros H Heq.
    assert (Hn : search false pat_close s <> None).
    { apply close_search_iff.
      destruct H as [[p ->] | [p ->]];
        [exists p, [] | exists p, [NL]]; now rewrite ?app_nil_r. }
    apply (@sub_length_lt _ _ _ _ shorten_close) in Hn.
    rewrite Heq in Hn. lia.
Qed.

Lemma closing_marker_removed_iff_witness :
  sub false pat_close [] (py "<p>x</p>" ++ NL :: py "```" ++ [NL]) <>
  py "<p>x</p>" ++ NL :: py "```" ++ [NL].
Proof.
  apply (proj2 (closing_marker_removed_iff
                  (py "<p>x</p>" ++ NL :: py "```" ++ [NL]))).
  right. reflexivity.
Defined.

(** The closing pattern behind a body that does not end in whitespace, with
    the last newline kept where there is one. *)
Lemma match_close_inside_eol bol x body ws r :
  (exists b z, x :: body = b ++ [z] /\ is_space z = false) ->
  at_eol r = true ->
  match_here false pat_close bol ((x :: body) ++ ws ++ FENCE ++ r) = None.
Proof.
  intros (b & z & Hb & Hz) Hr.
  destruct (match_here false pat_close bol _) as [n|] eqn:E; [|reflexivity].
  exfalso. apply match_close_inv in E as (sp & r' & Hs & Hsp & Hr' & _).
  rewrite Hb in Hs.
  assert (Hcut : (b ++ [z]) ++ ws = sp).
  { destruct (at_eol_inv _ Hr) as [-> | ->];
      destruct (at_eol_inv _ Hr') as [-> | ->].
    - rewrite !app_nil_r, (app_assoc (b ++ [z]) ws FENCE) in Hs.
      now apply app_inv_tail in Hs.
    - exfalso. change (FENCE ++ [NL]) with ([BT; BT; BT] ++ [NL]) in Hs.
      rewrite app_nil_r in Hs. change FENCE with ([BT; BT] ++ [BT]) in Hs.
      rewrite !app_assoc in Hs. apply app_inj_tail in Hs as [_ Hs].
      discriminate.
    - exfalso. change (FENCE ++ [NL]) with ([BT; BT; BT] ++ [NL]) in Hs.
      rewrite app_nil_r in Hs. change FENCE with ([BT; BT] ++ [BT]) in Hs.
      rewrite !app_assoc in Hs. apply app_inj_tail in Hs as [_ Hs].
      discriminate.
    - rewrite (app_assoc (b ++ [z]) ws (FENCE ++ [NL])) in Hs.
      now apply app_inv_tail in Hs. }
  assert (Hin : In z sp) by (rewrite <- Hcut; apply in_or_app; left;
                             apply in_or_app; right; now left).
  unfold spaces in Hsp. rewrite Forall_forall in Hsp.
  apply Hsp in Hin. congruence.
Qed.

Lemma sub_close_exact_eol : forall body ws r bol,
  body = [] \/ (exists b z, body = b ++ [z] /\ is_space z = false) ->
  spaces ws -> at_eol r = true ->
  sub_scan false pat_close [] bol 0 (body ++ ws ++ FENCE ++ r) = body ++ r.
Proof.
  induction body as [|x body IH]; intros ws r bol Hb Hws Hr.
  - destruct (at_eol_inv _ Hr) as [-> | ->].
    + rewrite app_nil_r. now apply sub_close_exact.
    + change ([] ++ ws ++ FENCE ++ [NL]) with (ws ++ FENCE ++ [NL]).
      change ([] ++ [NL]) with [NL].
      rewrite sub_scan_step, match_close, (lstrip_spaces _ Hws).
      rewrite (ws_len_spaces _ Hws).
      change (startswith FENCE (lstrip (FENCE ++ [NL])) &&
              at_eol (skipn 3 (lstrip (FENCE ++ [NL])))) with true.
      cbv iota.
      replace (length ws + ws_len (FENCE ++ [NL]) + 3)
        with (S (length ws + 2)) by (simpl; lia).
      replace (S (length ws + 2)) with (length (ws ++ FENCE))
        by (rewrite length_app; simpl; lia).
      now rewrite app_assoc, skipn_length_app.
  - rewrite sub_scan_step.
    destruct Hb as [Hb | Hb]; [discriminate|].
    rewrite (@match_close_inside_eol bol x body ws r Hb Hr).
    simpl. f_equal. apply IH; [|exact Hws|exact Hr].
    destruct Hb as (b & z & Hb & Hz).
    destruct b as [|y b]; injection Hb as -> ->; [now left|].
    right. now exists b, z.
Qed.

(** X3. Of a body wrapped in [```html] and [```] with one newline behind
    the closing marker, the wrapping goes, with the whitespace before the
    closing marker, and the last newline stays. *)
Theorem clean_html_output_keeps_last_newline (body ws1 ws2 : pystr) :
  spaces ws1 -> spaces ws2 ->
  (exists b r, body = b :: r /\ is_space b = false /\ b <> BT) ->
  (exists r z, body = r ++ [z] /\ is_space z = false) ->
  search true pat_tag_open (body ++ [NL]) = None ->
  search true pat_tag_close (body ++ [NL]) = None ->
  clean_html_output (py "```html" ++ ws1 ++ body ++ ws2 ++ FENCE ++ [NL]) =
  body ++ [NL].
Proof.
  intros H1 H2 (b & r & Hb & Hsp & Hbt) Hz Ho Hc.
  unfold clean_html_output. cbv zeta.
  rewrite sub_open_html_spec, startswith_app.
  change 7 with (length (py "```html")). rewrite skipn_length_app.
  rewrite (lstrip_spaces _ H1).
  assert (E1 : lstrip (body ++ ws2 ++ FENCE ++ [NL]) =
               body ++ ws2 ++ FENCE ++ [NL])
    by (rewrite Hb; simpl; now rewrite Hsp).
  rewrite E1, sub_open_spec.
  assert (E2 : startswith FENCE (body ++ ws2 ++ FENCE ++ [NL]) = false).
  { rewrite Hb. simpl. destruct (char_eqb 96%N b) eqn:E; [|reflexivity].
    apply char_eqb_eq in E. unfold BT in Hbt. congruence. }
  rewrite E2. unfold sub at 3.
  rewrite sub_close_exact_eol by auto.
  rewrite (@sub_no_match _ _ (py "<html>") _ Ho).
  apply (@sub_no_match _ _ (py "</html>") _ Hc).
Qed.

Lemma clean_html_output_keeps_last_newline_witness :
  clean_html_output
    (py "```html" ++ [NL] ++ py "<p>x</p>" ++ [NL] ++ FENCE ++ [NL]) =
  py "<p>x</p>" ++ [NL].
Proof.
  apply (clean_html_output_keeps_last_newline (body := py "<p>x</p>")
           (ws1 := [NL]) (ws2 := [NL])).
  - repeat constructor.
  - repeat constructor.
  - exists 60%N, (py "p>x</p>"). repeat split. discriminate.
  - exists (py "<p>x</p"), 62%N. split; reflexivity.
  - reflexivity.
  - reflexivity.
Defined.

(** ** The tag behind the opening marker *)

Lemma startswith_app_other (p : pystr) : forall a t,
  startswith p a = false ->
  (forall x t', t = x :: t' -> ~ In x p) ->
  startswith p (a ++ t) = false.
Proof.
  induction p as [|c p IH]; intros a t H Ht; [discriminate|].
  destruct a as [|y a].
  - destruct t as [|x t]; [reflexivity|]. simpl.
    destruct (char_eqb c x) eqn:E; [|reflexivity].
    apply char_eqb_eq in E. subst x.
    exfalso. apply (Ht c t eq_refl). now left.
  - simpl in *. destruct (char_eqb c y); [|reflexivity]. simpl in *.
    apply IH; [exact H|]. intros x t' E Hin. apply (Ht x t' E). now right.
Qed.

Lemma html_letter_no_space x : In x (py "html") -> is_space x = false.
Proof. simpl. intros [<-|[<-|[<-|[<-|[]]]]]; reflexivity. Qed.

(** X4. Behind the opening marker only the tag [html], in lower case, is
    taken away with it. Of a body wrapped in a bare [```] and [```], where
    what follows the opening marker does not start with [html] (another
    tag, as [xml] or [HTML], is then the start of the body), the two markers
    go and the body stays as it is, its tag included. *)
Theorem clean_html_output_keeps_other_tag (body ws1 ws2 : pystr) :
  spaces ws1 -> spaces ws2 ->
  startswith (py "html") (ws1 ++ body) = false ->
  (exists b r, body = b :: r /\ is_space b = false /\ b <> BT) ->
  (exists r z, body = r ++ [z] /\ is_space z = false) ->
  search true pat_tag_open body = None ->
  search true pat_tag_close body = None ->
  clean_html_output (FENCE ++ ws1 ++ body ++ ws2 ++ FENCE) = body.
Proof.
  intros H1 H2 Htag (b & r & Hb & Hsp & Hbt) Hz Ho Hc.
  unfold clean_html_output. cbv zeta.
  assert (E0 : startswith (py "```html")
                 (FENCE ++ ws1 ++ body ++ ws2 ++ FENCE) = false).
  { change (startswith (py "html") (ws1 ++ body ++ ws2 ++ FENCE) = false).
    rewrite app_assoc. apply startswith_app_other; [exact Htag|].
    intros x t' E Hin.
    destruct H2 as [|y ws2 Hy _]; simpl in E; injection E as <- _.
    - simpl in Hin. repeat destruct Hin as [Hin|Hin]; discriminate || easy.
    - apply html_letter_no_space in Hin. congruence. }
  rewrite sub_open_html_spec, E0, sub_open_spec, startswith_app.
  change 3 with (length FENCE). rewrite skipn_length_app.
  rewrite (lstrip_spaces _ H1).
  assert (E1 : lstrip (body ++ ws2 ++ FENCE) = body ++ ws2 ++ FENCE)
    by (rewrite Hb; simpl; now rewrite Hsp).
  rewrite E1. unfold sub at 3.
  rewrite sub_close_exact by auto.
  rewrite (@sub_no_match _ _ (py "<html>") _ Ho).
  apply (@sub_no_match _ _ (py "</html>") _ Hc).
Qed.

Lemma clean_html_output_keeps_other_tag_witness :
  clean_html_output (FENCE ++ [] ++ (py "HTML" ++ NL :: py "<p>x</p>")
                     ++ [NL] ++ FENCE) =
  py "HTML" ++ NL :: py "<p>x</p>".
Proof.
  apply (clean_html_output_keeps_other_tag
           (body := py "HTML" ++ NL :: py "<p>x</p>") (ws1 := [])
           (ws2 := [NL])).
  - constructor.
  - repeat constructor.
  - reflexivity.
  - exists 72%N, (py "TML" ++ NL :: py "<p>x</p>"). repeat split.
    discriminate.
  - exists (py "HTML" ++ NL :: py "<p>x</p"), 62%N. split; reflexivity.
  - reflexivity.
  - reflexivity.
Defined.

(** ** The case of the [html] tag *)

Lemma lits_prefix_app ic l : forall m r,
  lits_prefix ic l m = Some [] -> lits_prefix ic l (m ++ r) = Some r.
Proof.
  induction l as [|c l IH]; intros m r H.
  - simpl in H. injection H as ->. reflexivity.
  - destruct m as [|x m]; [discriminate|]. simpl in *.
    destruct (lit_matches ic c x); [auto|discriminate].
Qed.

Lemma same_ignoring_case_inv l m :
  same_ignoring_case l m = true -> lits_prefix true l m = Some [].
Proof.
  unfold same_ignoring_case.
  destruct (lits_prefix true l m) as [[|x r]|]; try discriminate. reflexivity.
Qed.

Lemma contains_fence_cons x t :
  x <> BT -> contains FENCE (x :: t) = contains FENCE t.
Proof.
  intros Hx. simpl. destruct (char_eqb 96%N x) eqn:E; [|reflexivity].
  apply char_eqb_eq in E. unfold BT in Hx. congruence.
Qed.

Lemma lit_matches_cased c x :
  lit_matches true c x = true -> x = c \/ x = (c - 32)%N.
Proof.
  unfold lit_matches. rewrite orb_true_iff, !andb_true_iff, !char_eqb_eq.
  intros [H | [_ H]]; auto.
Qed.

(** A text behind [html], in whatever case, that holds no fence marker:
    the whole holds none. *)
Lemma html_word_no_fence h x :
  same_ignoring_case (py "html") h = true ->
  contains FENCE x = false ->
  contains FENCE (h ++ x) = false /\ length h = 4.
Proof.
  intros Hh Hx. apply same_ignoring_case_inv in Hh.
  destruct h as [|a [|b [|c [|d [|e h]]]]]; simpl in Hh;
    repeat match type of Hh with
           | (if ?t then _ else _) = _ => destruct t eqn:?; [|discriminate]
           end; try discriminate.
  split; [|reflexivity].
  repeat match goal with
         | H : lit_matches true _ _ = true |- _ =>
             apply lit_matches_cased in H; simpl in H
         end.
  simpl app.
  rewrite !contains_fence_cons; [exact Hx| | | |];
    match goal with
    | |- ?v <> BT =>
        match goal with H : v = _ \/ v = _ |- _ =>
          destruct H as [-> | ->]; discriminate end
    end.
Qed.

Lemma suffix_inside (A : Type) (q x : list A) : forall a p,
  a ++ x = p ++ q -> length q <= length x -> exists p', x = p' ++ q.
Proof.
  induction a as [|y a IH]; intros p H Hlen.
  - now exists p.
  - destruct p as [|z p]; simpl in H.
    + exfalso. apply (f_equal (@length A)) in H. simpl in H.
      rewrite length_app in H. lia.
    + injection H as _ H. eauto.
Qed.

(** X5. The opening [html] tag is matched in whatever case and written back
    in lower case: of a tag, whitespace, the marker tagged [html] and a text
    without a fence marker what is left is [<html>] and that text. *)
Theorem clean_html_output_lowers_html_tag (tag ws h x : pystr) :
  same_ignoring_case (py "<html>") tag = true ->
  spaces ws ->
  same_ignoring_case (py "html") h = true ->
  contains FENCE x = false ->
  clean_html_output (tag ++ ws ++ FENCE ++ h ++ x) = py "<html>" ++ x.
Proof.
  intros Htag Hws Hh Hx.
  apply same_ignoring_case_inv in Htag.
  destruct (html_word_no_fence _ _ Hh Hx) as [Hhx Hlen].
  apply same_ignoring_case_inv in Hh.
  pose proof (lits_prefix_split _ _ _ Htag) as (tag' & Etag & Ltag).
  rewrite app_nil_r in Etag. subst tag'.
  change (length (py "<html>")) with 6 in Ltag.
  destruct (lits_prefix_uncased true 60%N (py "html>") tag eq_refl Htag)
    as (tag1 & -> & _).
  match goal with
  | |- clean_html_output ?t = _ => remember t as s eqn:Es
  end.
  unfold clean_html_output. cbv zeta.
  assert (E1 : startswith (py "```html") s = false) by (now rewrite Es).
  assert (E2 : startswith FENCE s = false) by (now rewrite Es).
  rewrite sub_open_html_spec, E1, sub_open_spec, E2.
  (* the closing pattern has no match: the text ends inside [h ++ x] *)
  assert (E3 : search false pat_close s = None).
  { destruct (search false pat_close s) eqn:E; [|reflexivity]. exfalso.
    assert (Hn : search_scan false pat_close true s <> None)
      by (unfold search in E; rewrite E; discriminate).
    apply close_search_iff in Hn as (p & r & Hs & Hr).
    rewrite Es in Hs. rewrite !app_assoc in Hs. rewrite <- !app_assoc in Hs.
    rewrite (app_assoc (60%N :: tag1) ws), (app_assoc _ FENCE) in Hs.
    apply suffix_inside in Hs as [p' Hs].
    - assert (Hc : contains FENCE (h ++ x) = true)
        by (rewrite Hs; apply contains_iff; now exists p', r).
      congruence.
    - rewrite !length_app, Hlen.
      destruct (at_eol_inv _ Hr) as [-> | ->]; simpl; lia. }
  rewrite (@sub_no_match _ _ [] _ E3).
  (* the tag pattern matches at the start *)
  assert (E4 : sub true pat_tag_open (py "<html>") s = py "<html>" ++ x).
  { unfold sub. rewrite sub_scan_step.
    assert (Em : match_here true pat_tag_open true s
                 = Some (S (5 + (length ws + 7)))).
    { unfold pat_tag_open. rewrite match_here_lits_str by discriminate.
      rewrite Es, (@lits_prefix_app _ _ _ _ Htag).
      change (SpaceStar :: lits "```html")
        with (SpaceStar :: Lit BT :: (lits "``html" ++ [])).
      rewrite match_here_star_lit by apply BT_not_space.
      change (Lit BT :: lits "``html" ++ []) with (lits "```html" ++ []).
      rewrite match_here_lits_str by discriminate.
      rewrite (lstrip_spaces _ Hws), (ws_len_spaces _ Hws).
      change (lstrip (FENCE ++ h ++ x)) with (FENCE ++ h ++ x).
      change (lits_prefix true (py "```html") (FENCE ++ h ++ x))
        with (lits_prefix true (py "html") (h ++ x)).
      rewrite (@lits_prefix_app _ _ _ _ Hh). simpl. f_equal. lia. }
    rewrite Em.
    replace (skipn (S (5 + (length ws + 7))) s) with x.
    - f_equal. apply sub_scan_no_match.
      apply (@search_scan_no_fence true pat_tag_open
               (@match_pat_tag_open_fence) x false Hx).
    - rewrite Es, !app_assoc.
      replace (S (5 + (length ws + 7)))
        with (length ((((60%N :: tag1) ++ ws) ++ FENCE) ++ h)).
      + now rewrite skipn_length_app.
      + rewrite !length_app. unfold pystr, char in *. simpl in *. lia. }
  rewrite E4.
  apply sub_no_match.
  apply (@search_scan_no_fence true pat_tag_close
           (@match_pat_tag_close_fence) (py "<html>" ++ x) true).
  simpl app. rewrite !contains_fence_cons by discriminate. exact Hx.
Qed.

Lemma clean_html_output_lowers_html_tag_witness :
  clean_html_output
    (py "<HTML>" ++ [NL] ++ FENCE ++ py "Html"
     ++ (NL :: py "<body>ok</body>")) =
  py "<html>" ++ NL :: py "<body>ok</body>".
Proof.
  apply (@clean_html_output_lowers_html_tag
           (py "<HTML>") [NL] (py "Html") (NL :: py "<body>ok</body>")).
  - reflexivity.
  - repeat constructor.
  - reflexivity.
  - reflexivity.
Defined.

(** * Further properties of [process_pdf_with_gemini] *)

Section Runs.

Variable path_suffix : pystr -> pystr.
Variable str_lower : pystr -> pystr.
Variable utf8_encode : pystr -> bytes.

(** A run, by cases: the two checks, the reading of the document, the call
    of the service, the text of the response, the writing of the output. *)
Lemma process_run
  (w : world) (pdf_path : pystr) (output_path prompt : option pystr)
  (enable_thinking : bool) (thinking_budget : Z) :
  process_pdf_with_gemini path_suffix str_lower utf8_encode pdf_path
    output_path prompt enable_thinking thinking_budget w =
  match fs w pdf_path with
  | None =>
      (inl (FileNotFoundError (py "PDF file not found: " ++ pdf_path)), w)
  | Some n =>
      if pystr_eqb (str_lower (path_suffix pdf_path)) (py ".pdf") then
        match n with
        | Dir => (inl (IsADirectoryError pdf_path), w)
        | File d =>
            let req := sent_request d prompt enable_thinking thinking_budget in
            match service w req with
            | inl e => (inl (ServiceError e), with_call req w)
            | inr r =>
                match text r with
                | None =>
                    (inl (TypeError
                            (py "expected string or bytes-like object")),
                     with_call req w)
                | Some t =>
                    let res := {| _original := r;
                                  cleaned_text := clean_html_output t |} in
                    match output_path with
                    | Some (c :: o) =>
                        match fs w (c :: o) with
                        | Some Dir =>
                            (inl (IsADirectoryError (c :: o)),
                             with_call req w)
                        | _ =>
                            (inr res,
                             with_lines
                               [py "HTML output saved to: " ++ c :: o]
                               (with_file (c :: o)
                                  (utf8_encode (clean_html_output t))
                                  (with_call req w)))
                        end
                    | _ => (inr res, with_call req w)
                    end
                end
            end
        end
      else
        (inl (ValueError (py "Expected a PDF file, got "
                          ++ str_lower (path_suffix pdf_path))), w)
  end.
Proof.
  unfold process_pdf_with_gemini, bind, os_path_exists, read_binary,
    generate_content, write_text, print, ret, raise.
  destruct (fs w pdf_path) as [n|] eqn:Efs; [|reflexivity].
  cbn [negb].
  destruct (pystr_eqb (str_lower (path_suffix pdf_path)) (py ".pdf"));
    [|reflexivity].
  cbn [negb]. rewrite Efs.
  destruct n as [d|]; [|reflexivity].
  cbv zeta. cbn [fs service service_calls stdout].
  fold (sent_request d prompt enable_thinking thinking_budget).
  destruct (service w _) as [e|r]; [reflexivity|].
  destruct (text r) as [t|]; [|reflexivity].
  destruct output_path as [[|c o]|]; try reflexivity.
  cbn [fs]. destruct (fs w (c :: o)) as [[d'|]|]; reflexivity.
Qed.


(** X7. Where the service fails its error is raised on, as a service error;
    the request is in the log, and no file was written and nothing
    printed. *)
Theorem service_error_leaves_no_output
  (w : world) (pdf_path : pystr) (output_path prompt : option pystr)
  (enable_thinking : bool) (thinking_budget : Z) (d : bytes) (e : pystr) :
  fs w pdf_path = Some (File d) ->
  str_lower (path_suffix pdf_path) = py ".pdf" ->
  service w (sent_request d prompt enable_thinking thinking_budget) = inl e ->
  process_pdf_with_gemini path_suffix str_lower utf8_encode pdf_path
    output_path prompt enable_thinking thinking_budget w =
  (inl (ServiceError e),
   with_call (sent_request d prompt enable_thinking thinking_budget) w).
Proof.
  intros Hfs Hext Hsvc. rewrite process_run, Hfs, Hext.
  rewrite (proj2 (pystr_eqb_eq (py ".pdf") (py ".pdf")) eq_refl).
  cbv zeta. now rewrite Hsvc.
Qed.

(** X8. A response without a text makes [re.sub] raise: the error comes
    after the request was sent, and no file was written and nothing
    printed. *)
Theorem response_without_text_raises
  (w : world) (pdf_path : pystr) (output_path prompt : option pystr)
  (enable_thinking : bool) (thinking_budget : Z) (d : bytes) (r : response) :
  fs w pdf_path = Some (File d) ->
  str_lower (path_suffix pdf_path) = py ".pdf" ->
  service w (sent_request d prompt enable_thinking thinking_budget) = inr r ->
  text r = None ->
  exists msg,
    process_pdf_with_gemini path_suffix str_lower utf8_encode pdf_path
      output_path prompt enable_thinking thinking_budget w =
    (inl (TypeError msg),
     with_call (sent_request d prompt enable_thinking thinking_budget) w).
Proof.
  intros Hfs Hext Hsvc Htext. rewrite process_run, Hfs, Hext.
  rewrite (proj2 (pystr_eqb_eq (py ".pdf") (py ".pdf")) eq_refl).
  cbv zeta. rewrite Hsvc, Htext. eauto.
Qed.

(** X9. A directory whose name ends in [.pdf] passes both checks and fails
    at [open]: no request is sent. *)
Theorem directory_fails_at_open
  (w : world) (pdf_path : pystr) (output_path prompt : option pystr)
  (enable_thinking : bool) (thinking_budget : Z) :
  fs w pdf_path = Some Dir ->
  str_lower (path_suffix pdf_path) = py ".pdf" ->
  process_pdf_with_gemini path_suffix str_lower utf8_encode pdf_path
    output_path prompt enable_thinking thinking_budget w =
  (inl (IsADirectoryError pdf_path), w).
Proof.
  intros Hfs Hext. rewrite process_run, Hfs, Hext.
  now rewrite (proj2 (pystr_eqb_eq (py ".pdf") (py ".pdf")) eq_refl).
Qed.

(** The requests of a run. *)
Lemma process_calls
  (w : world) (pdf_path : pystr) (output_path prompt : option pystr)
  (enable_thinking : bool) (thinking_budget : Z) :
  let w' := snd (process_pdf_with_gemini path_suffix str_lower utf8_encode
                   pdf_path output_path prompt enable_thinking
                   thinking_budget w) in
  service_calls w' = service_calls w \/
  exists d,
    fs w pdf_path = Some (File d) /\
    service_calls w' =
      sent_request d prompt enable_thinking thinking_budget
      :: service_calls w.
Proof.
  rewrite process_run.
  destruct (fs w pdf_path) as [[d|]|]; [| |now left];
    destruct (pystr_eqb _ _); try now left.
  right. exists d. split; [reflexivity|]. cbv zeta.
  destruct (service w _) as [e|r]; [reflexivity|].
  destruct (text r); [|reflexivity].
  destruct output_path as [[|c o]|]; try reflexivity.
  destruct (fs w (c :: o)) as [[d'|]|]; reflexivity.
Qed.

(** X10. A run sends at most one request, there is no second try, and the
    request it sends carries the bytes of the document, the prompt given or
    else the default one, and the thinking budget exactly where thinking is
    enabled. *)
Theorem at_most_one_request
  (w : world) (pdf_path : pystr) (output_path prompt : option pystr)
  (enable_thinking : bool) (thinking_budget : Z) :
  let w' := snd (process_pdf_with_gemini path_suffix str_lower utf8_encode
                   pdf_path output_path prompt enable_thinking
                   thinking_budget w) in
  service_calls w' = service_calls w \/
  exists d req,
    fs w pdf_path = Some (File d) /\
    service_calls w' = req :: service_calls w /\
    part_data req = d /\
    part_text req = match prompt with
                    | None => DEFAULT_PROMPT
                    | Some p => p
                    end /\
    thinking_config (config req) =
      if enable_thinking then Some thinking_budget else None.
Proof.
  intros w'. destruct (process_calls w pdf_path output_path prompt
                         enable_thinking thinking_budget)
    as [H | (d & Hfs & H)]; [now left|].
  right. exists d, (sent_request d prompt enable_thinking thinking_budget).
  repeat split; assumption.
Qed.




End Runs.

(** Examples of the properties above, in [example_world]. *)


(** The same world with a service that is down. *)
Lemma service_error_leaves_no_output_witness :
  let w := {| fs := fs example_world;
              service := fun _ => inl (py "503 UNAVAILABLE");
              service_calls := []; stdout := [] |} in
  process_pdf_with_gemini name_suffix ascii_lower ascii_encode
    (py "report.PDF") (Some (py "report.html")) None true 8000 w
  = (inl (ServiceError (py "503 UNAVAILABLE")),
     with_call (sent_request [37; 80; 68; 70]%N None true 8000) w).
Proof.
  intros w.
  apply (@service_error_leaves_no_output name_suffix ascii_lower ascii_encode
           w (py "report.PDF") (Some (py "report.html")) None true 8000%Z
           [37; 80; 68; 70]%N (py "503 UNAVAILABLE")); reflexivity.
Defined.

Lemma response_without_text_raises_witness :
  let r := {| text := None; thoughts_token_count := None;
              total_token_count := None |} in
  let w := {| fs := fs example_world; service := fun _ => inr r;
              service_calls := []; stdout := [] |} in
  exists msg,
    process_pdf_with_gemini name_suffix ascii_lower ascii_encode
      (py "report.PDF") (Some (py "report.html")) None true 8000 w
    = (inl (TypeError msg),
       with_call (sent_request [37; 80; 68; 70]%N None true 8000) w).
Proof.
  intros r w.
  apply (@response_without_text_raises name_suffix ascii_lower ascii_encode
           w (py "report.PDF") (Some (py "report.html")) None true 8000%Z
           [37; 80; 68; 70]%N r); reflexivity.
Defined.

Lemma directory_fails_at_open_witness :
  let w := {| fs := fun p => if pystr_eqb p (py "scans.pdf") then Some Dir
                             else None;
              service := service example_world;
              service_calls := []; stdout := [] |} in
  process_pdf_with_gemini name_suffix ascii_lower ascii_encode
    (py "scans.pdf") None None true 8000 w
  = (inl (IsADirectoryError (py "scans.pdf")), w).
Proof.
  intros w.
  apply (@directory_fails_at_open name_suffix ascii_lower ascii_encode
           w (py "scans.pdf") None None true 8000%Z); reflexivity.
Defined.



(** * Properties of [main] *)

Section MainRuns.

Variable path_suffix : pystr -> pystr.
Variable str_lower : pystr -> pystr.
Variable utf8_encode : pystr -> bytes.
Variable with_suffix_html : pystr -> exn + pystr.
Variable repr : pystr -> pystr.
Variable str_thoughts_token_count : response -> option pystr.
Variable str_total_token_count : response -> option pystr.

(** A run of [main], by the outcome of the run of
    [process_pdf_with_gemini] in it. *)
Lemma main_run (cl : command_line) (w : world) :
  main path_suffix str_lower utf8_encode with_suffix_html repr
    str_thoughts_token_count str_total_token_count cl w =
  match output_of with_suffix_html cl with
  | inl e => (inl e, w)
  | inr o =>
      match process_pdf_with_gemini path_suffix str_lower utf8_encode
              (cl_pdf_path cl) (Some o) (cl_prompt cl) true
              (match cl_thinking_budget cl with
               | Some b => b
               | None => 24000%Z
               end) w with
      | (inl e, w1) =>
          (inr tt,
           with_lines [py "Error processing PDF: " ++ str_exn repr e] w1)
      | (inr c, w1) =>
          (inr tt,
           fold_left (fun v line => with_lines [line] v)
             ((NL :: py "=== CONVERSION COMPLETE ===" ++ [NL])
              :: (py "HTML saved to: " ++ o)
              :: usage_lines (str_thoughts_token_count (_original c))
                   (str_total_token_count (_original c)))
             w1)
      end
  end.
Proof.
  unfold main, output_of, parse_args, bind, try_except, ret, raise, print.
  cbn [args_pdf_path args_output args_prompt args_thinking
       args_thinking_budget].
  assert (Et : (if cl_thinking cl then true else true) = true)
    by now destruct (cl_thinking cl).
  rewrite Et.
  destruct (cl_output cl) as [[|c o]|].
  - destruct (with_suffix_html (cl_pdf_path cl)) as [e|p]; [reflexivity|].
    destruct (process_pdf_with_gemini _ _ _ _ _ _ _ _ w) as [[e|r] w1];
      [reflexivity|].
    unfold usage_lines.
    destruct (str_thoughts_token_count (_original r)); [|reflexivity].
    destruct (str_total_token_count (_original r)); reflexivity.
  - destruct (process_pdf_with_gemini _ _ _ _ _ _ _ _ w) as [[e|r] w1];
      [reflexivity|].
    unfold usage_lines.
    destruct (str_thoughts_token_count (_original r)); [|reflexivity].
    destruct (str_total_token_count (_original r)); reflexivity.
  - destruct (with_suffix_html (cl_pdf_path cl)) as [e|p]; [reflexivity|].
    destruct (process_pdf_with_gemini _ _ _ _ _ _ _ _ w) as [[e|r] w1];
      [reflexivity|].
    unfold usage_lines.
    destruct (str_thoughts_token_count (_original r)); [|reflexivity].
    destruct (str_total_token_count (_original r)); reflexivity.
Qed.

Lemma printed_lines (lines : list pystr) : forall v,
  let v' := fold_left (fun v line => with_lines [line] v) lines v in
  stdout v' = stdout v ++ lines /\ fs v' = fs v /\
  service_calls v' = service_calls v.
Proof.
  induction lines as [|l lines IH]; intros v; simpl.
  - now rewrite app_nil_r.
  - destruct (IH (with_lines [l] v)) as (H1 & H2 & H3).
    rewrite H1, H2, H3. simpl. now rewrite <- app_assoc.
Qed.


(** X14. Whatever the command line, the request [main] sends asks for
    thinking, with the budget given or else 24000: [--thinking] is a
    [store_true] option whose default is [True], so thinking cannot be
    switched off. *)
Theorem main_always_thinks (cl : command_line) (w : world) :
  let w' := snd (main path_suffix str_lower utf8_encode with_suffix_html
                   repr str_thoughts_token_count str_total_token_count
                   cl w) in
  service_calls w' = service_calls w \/
  exists req,
    service_calls w' = req :: service_calls w /\
    thinking_config (config req) =
      Some (match cl_thinking_budget cl with
            | Some b => b
            | None => 24000%Z
            end).
Proof.
  rewrite main_run.
  destruct (output_of with_suffix_html cl) as [e|o]; [now left|].
  pose proof (process_calls path_suffix str_lower utf8_encode w
                (cl_pdf_path cl) (Some o) (cl_prompt cl) true
                (match cl_thinking_budget cl with
                 | Some b => b
                 | None => 24000%Z
                 end)) as H.
  destruct (process_pdf_with_gemini _ _ _ _ _ _ _ _ w) as [[e|c] w1];
    simpl in *.
  - destruct H as [H | (d & _ & H)]; [now left|].
    right. eexists. split; [exact H|reflexivity].
  - destruct (printed_lines
                ((NL :: py "=== CONVERSION COMPLETE ===" ++ [NL])
                 :: (py "HTML saved to: " ++ o)
                 :: usage_lines (str_thoughts_token_count (_original c))
                      (str_total_token_count (_original c))) w1)
      as (_ & _ & Hc).
    simpl in Hc. rewrite Hc.
    destruct H as [H | (d & _ & H)]; [now left|].
    right. eexists. split; [exact H|reflexivity].
Qed.



End MainRuns.


